(** * Dynamic form engine: schema compiler, default values, section navigation

    A shallow embedding of [src/components/dynamic-form.tsx] together with
    the type declarations of [lib/api/form.ts].

    The component builds a zod schema from a form description
    ([buildSchema]), synthesises default values ([generateDefaultValues])
    and drives a react-hook-form instance through three handlers
    ([handleNext], [handlePrev], [onSubmit]).  The parts of zod and of
    react-hook-form the component calls are modelled below next to the
    calls that use them; what the host supplies (zod's e-mail pattern, the
    clock, the offsets of the time zone and what the engine makes of a
    day its month lacks) is gathered in the record [Host]. *)

From Stdlib Require Import ZArith String Ascii List Bool Lia.
From stdpp Require Import base option list strings pretty gmap fin_maps.

Local Open Scope string_scope.
Local Open Scope Z_scope.

(** ** Strings and the two regular expressions of the source

    JavaScript strings are modelled as [string]: a character is one code
    unit in the range U+0000..U+00FF, so [String.length] is the
    [.length] of the source. *)

Definition code (c : ascii) : nat := nat_of_ascii c.

(** [\d]: the ten ASCII digits. *)
Definition isDigit (c : ascii) : bool :=
  ((48 <=? code c) && (code c <=? 57))%nat.

(** [\s] restricted to U+0000..U+00FF: TAB, LF, VT, FF, CR, space, NBSP. *)
Definition isSpace (c : ascii) : bool :=
  (((9 <=? code c) && (code c <=? 13)) || (code c =? 32) || (code c =? 160))%nat.

(** One character of the class [[\d\s\-()+]]. *)
Definition isPhoneChar (c : ascii) : bool :=
  isDigit c || isSpace c
  || Ascii.eqb c "-" || Ascii.eqb c "(" || Ascii.eqb c ")" || Ascii.eqb c "+".

Fixpoint allChars (p : ascii -> bool) (s : string) : bool :=
  match s with
  | EmptyString => true
  | String c rest => p c && allChars p rest
  end.

(** [/^[\d\s\-()+]*$/.test(s)] *)
Definition phoneRegex (s : string) : bool := allChars isPhoneChar s.

(** [/^\d{4}-\d{2}-\d{2}$/.test(s)] *)
Definition dateRegex (s : string) : bool :=
  match list_ascii_of_string s with
  | [y1; y2; y3; y4; h1; m1; m2; h2; d1; d2] =>
      isDigit y1 && isDigit y2 && isDigit y3 && isDigit y4
      && Ascii.eqb h1 "-" && isDigit m1 && isDigit m2
      && Ascii.eqb h2 "-" && isDigit d1 && isDigit d2
  | _ => false
  end.

(** [s.length] as a JavaScript number. *)
Definition strlen (s : string) : Z := Z.of_nat (String.length s).

(** ** Dates

    [new Date("YYYY-MM-DD")] reads the date-only form of the ECMAScript
    date-time string format: for a calendar date the result is midnight
    UTC of that day, as milliseconds since the epoch. *)

Record CalDate := { year : Z; month : Z; day : Z }.

Definition isLeap (y : Z) : bool :=
  (y mod 4 =? 0) && (negb (y mod 100 =? 0) || (y mod 400 =? 0)).

Definition daysInMonth (y m : Z) : Z :=
  if m =? 2 then (if isLeap y then 29 else 28)
  else if (m =? 4) || (m =? 6) || (m =? 9) || (m =? 11) then 30
  else 31.

Definition validDate (d : CalDate) : bool :=
  (0 <=? year d) && (year d <=? 9999)
  && (1 <=? month d) && (month d <=? 12)
  && (1 <=? day d) && (day d <=? daysInMonth (year d) (month d)).

(** Day number of 1 January of year [y] (ECMA-262, DayFromYear). *)
Definition DayFromYear (y : Z) : Z :=
  365 * (y - 1970) + (y - 1969) / 4 - (y - 1901) / 100 + (y - 1601) / 400.

(** Days of year [y] before the first of month [m]. *)
Definition daysBeforeMonth (y m : Z) : Z :=
  let leap := if isLeap y then 1 else 0 in
  if m <=? 1 then 0
  else if m =? 2 then 31
  else if m =? 3 then 59 + leap
  else if m =? 4 then 90 + leap
  else if m =? 5 then 120 + leap
  else if m =? 6 then 151 + leap
  else if m =? 7 then 181 + leap
  else if m =? 8 then 212 + leap
  else if m =? 9 then 243 + leap
  else if m =? 10 then 273 + leap
  else if m =? 11 then 304 + leap
  else 334 + leap.

(** Day number of a calendar date (ECMA-262, MakeDay). *)
Definition MakeDay (d : CalDate) : Z :=
  DayFromYear (year d) + daysBeforeMonth (year d) (month d) + (day d - 1).

Definition msPerDay : Z := 86400000.

(** Midnight UTC of a calendar date, in milliseconds since the epoch. *)
Definition utcMidnight (d : CalDate) : Z := MakeDay d * msPerDay.

Definition digitVal (c : ascii) : Z := Z.of_nat (code c) - 48.

(** The fields of a string of the shape [dddd-dd-dd]. *)
Definition readDate (s : string) : option CalDate :=
  match list_ascii_of_string s with
  | [y1; y2; y3; y4; _; m1; m2; _; d1; d2] =>
      Some {| year := 1000 * digitVal y1 + 100 * digitVal y2
                      + 10 * digitVal y3 + digitVal y4;
              month := 10 * digitVal m1 + digitVal m2;
              day := 10 * digitVal d1 + digitVal d2 |}
  | _ => None
  end.

(** ** Host environment *)

Record Host := {
  (** zod's e-mail pattern, [emailRegex.test] *)
  isEmail : string -> bool;
  (** [getTimezoneOffset()] at local midnight of today: the minutes to
      add to midnight UTC of the local date to get [startOfDay(new
      Date())] *)
  tzOffset : Z;
  (** the local calendar date of [new Date()] when the schema is built *)
  nowLocal : CalDate;
  (** [getTimezoneOffset()] of a Date at a given instant, in
      milliseconds since the epoch: it changes with daylight saving *)
  offsetAt : Z -> Z;
  (** what [new Date] makes of a date-only string whose month is 1..12
      and whose day, at most 31, lies past the end of that month.
      Engines differ: V8 rolls over into the next month, ECMA-262 asks
      for NaN ([None]) *)
  overflowDate : CalDate -> option Z
}.

(** [startOfDay(new Date())]: local midnight of the current day. *)
Definition startOfDay_now (h : Host) : Z :=
  utcMidnight (nowLocal h) + tzOffset h * 60000.

(** [new Date(s).getTime()] for a string that passed [dateRegex]; [None]
    is NaN.  The source calls it on such strings only.  A month outside
    1..12 or a day outside 1..31 gives NaN; a day within 1..31 that the
    month does not have is left to the engine. *)
Definition newDate (h : Host) (s : string) : option Z :=
  if dateRegex s then
    match readDate s with
    | Some d =>
        if validDate d then Some (utcMidnight d)
        else if (1 <=? month d) && (month d <=? 12)
                && (1 <=? day d) && (day d <=? 31)
             then overflowDate h d
             else None
    | None => None
    end
  else None.

(** ** Form description ([lib/api/form.ts]) *)

Inductive FieldType :=
  | text | tel | email | textarea | date | dropdown | radio | checkbox.

Definition FieldType_eqb (a b : FieldType) : bool :=
  match a, b with
  | text, text | tel, tel | email, email | textarea, textarea
  | date, date | dropdown, dropdown | radio, radio | checkbox, checkbox => true
  | _, _ => false
  end.

Record FormFieldOption := {
  optValue : string;
  optLabel : string;
  optDataTestId : option string
}.

Record FormFieldValidation := { message : string }.

Record FormField := {
  fieldId : string;
  type : FieldType;
  label : string;
  placeholder : option string;
  required : bool;
  dataTestId : string;
  validation : option FormFieldValidation;
  options : option (list FormFieldOption);
  maxLength : option Z;
  minLength : option Z
}.

Record FormSection := {
  sectionId : Z;
  title : string;
  description : string;
  fields : list FormField
}.

Record Form := {
  formTitle : string;
  formId : string;
  version : string;
  sections : list FormSection
}.

(** ** Values and zod schemas *)

(** What a form value can be: a string, a boolean, or absent. *)
Inductive Value :=
  | VUndefined
  | VStr (s : string)
  | VBool (b : bool).

Inductive StringCheck :=
  | CheckMin (value : Z) (msg : string)
  | CheckMax (value : Z) (msg : string)
  | CheckEmail (msg : string)
  | CheckRegex (regex : string -> bool) (msg : string).

Inductive ZodType :=
  | ZodAny
  | ZodString (checks : list StringCheck)
  | ZodBoolean
  | ZodEffects (schema : ZodType) (refinement : Value -> bool) (msg : string)
  | ZodOptional (innerType : ZodType)
  | ZodDefault (innerType : ZodType) (defaultValue : Value).

(** [_def.typeName] *)
Definition typeName (t : ZodType) : string :=
  match t with
  | ZodAny => "ZodAny"
  | ZodString _ => "ZodString"
  | ZodBoolean => "ZodBoolean"
  | ZodEffects _ _ _ => "ZodEffects"
  | ZodOptional _ => "ZodOptional"
  | ZodDefault _ _ => "ZodDefault"
  end.

(** [haystack.includes(needle)] *)
Fixpoint includes (haystack needle : string) : bool :=
  String.prefix needle haystack
  || match haystack with
     | EmptyString => false
     | String _ rest => includes rest needle
     end.

(** The builder methods the source calls.  [z_min], [z_max] exist on
    string schemas only; the source calls them on nothing else. *)
Definition z_string : ZodType := ZodString [].

Definition addCheck (c : StringCheck) (t : ZodType) : ZodType :=
  match t with
  | ZodString cs => ZodString (cs ++ [c])
  | other => other
  end.

Definition z_min (n : Z) (m : string) : ZodType -> ZodType := addCheck (CheckMin n m).
Definition z_max (n : Z) (m : string) : ZodType -> ZodType := addCheck (CheckMax n m).
Definition z_email (m : string) : ZodType -> ZodType := addCheck (CheckEmail m).
Definition z_regex (re : string -> bool) (m : string) : ZodType -> ZodType :=
  addCheck (CheckRegex re m).
Definition z_refine (p : Value -> bool) (m : string) (t : ZodType) : ZodType :=
  ZodEffects t p m.
Definition z_optional (t : ZodType) : ZodType := ZodOptional t.
Definition z_default (v : Value) (t : ZodType) : ZodType := ZodDefault t v.

(** [x instanceof z.ZodString] *)
Definition isZodString (t : ZodType) : bool :=
  match t with ZodString _ => true | _ => false end.

(** *** Parsing *)

Inductive ParseStatus := Valid | Dirty | Aborted.

Record ParseResult := {
  status : ParseStatus;
  output : Value;
  issues : list string
}.

Definition parsedType (v : Value) : string :=
  match v with
  | VUndefined => "undefined"
  | VStr _ => "string"
  | VBool _ => "boolean"
  end.

(** Message of an [invalid_type] issue in zod's default error map. *)
Definition invalidTypeMessage (expected : string) (v : Value) : string :=
  match v with
  | VUndefined => "Required"
  | _ => "Expected " +:+ expected +:+ ", received " +:+ parsedType v
  end.

(** One check of a string schema: the issue it raises, if any. *)
Definition runCheck (h : Host) (s : string) (c : StringCheck) : list string :=
  match c with
  | CheckMin n m => if strlen s <? n then [m] else []
  | CheckMax n m => if strlen s >? n then [m] else []
  | CheckEmail m => if isEmail h s then [] else [m]
  | CheckRegex re m => if re s then [] else [m]
  end.

(** A string schema runs every check, in the order they were added. *)
Definition runChecks (h : Host) (s : string) (cs : list StringCheck) : list string :=
  concat (map (runCheck h s) cs).

Definition statusOf (iss : list string) : ParseStatus :=
  match iss with [] => Valid | _ => Dirty end.

Fixpoint parse (h : Host) (t : ZodType) (v : Value) : ParseResult :=
  match t with
  | ZodAny => {| status := Valid; output := v; issues := [] |}
  | ZodString cs =>
      match v with
      | VStr s =>
          let iss := runChecks h s cs in
          {| status := statusOf iss; output := v; issues := iss |}
      | _ => {| status := Aborted; output := v;
                issues := [invalidTypeMessage "string" v] |}
      end
  | ZodBoolean =>
      match v with
      | VBool _ => {| status := Valid; output := v; issues := [] |}
      | _ => {| status := Aborted; output := v;
                issues := [invalidTypeMessage "boolean" v] |}
      end
  | ZodEffects inner refinement m =>
      let r := parse h inner v in
      match status r with
      | Aborted => r
      | _ =>
          if refinement (output r) then r
          else {| status := Dirty; output := output r; issues := issues r ++ [m] |}
      end
  | ZodOptional inner =>
      match v with
      | VUndefined => {| status := Valid; output := VUndefined; issues := [] |}
      | _ => parse h inner v
      end
  | ZodDefault inner d =>
      match v with
      | VUndefined => parse h inner d
      | _ => parse h inner v
      end
  end.

(** ** The schema compiler ([buildSchema]) *)

(** [field.validation?.message || fallback]: the empty string is falsy. *)
Definition messageOr (field : FormField) (fallback : string) : string :=
  match validation field with
  | Some v => if String.eqb (message v) "" then fallback else message v
  | None => fallback
  end.

Definition minLengthMessage (field : FormField) (n : Z) : string :=
  label field +:+ " must be at least " +:+ pretty n +:+ " characters".

Definition maxLengthMessage (field : FormField) (n : Z) : string :=
  label field +:+ " cannot exceed " +:+ pretty n +:+ " characters".

Definition requiredMessage (field : FormField) : string :=
  messageOr field (label field +:+ " is required").

Definition emailMessage (field : FormField) : string :=
  messageOr field "Invalid email address".

Definition phoneMessage (field : FormField) : string :=
  messageOr field "Invalid phone number format".

Definition dateFormatMessage (field : FormField) : string :=
  messageOr field "Invalid date format (YYYY-MM-DD)".

Definition futureDateMessage (field : FormField) : string :=
  messageOr field (label field +:+ " cannot be a future date").

(** The two [if (field.minLength !== undefined)], [if (field.maxLength
    !== undefined)] steps shared by the text and the tel cases. *)
Definition withLengths (field : FormField) (t : ZodType) : ZodType :=
  let t1 := match minLength field with
            | Some n => z_min n (minLengthMessage field n) t
            | None => t
            end in
  match maxLength field with
  | Some n => z_max n (maxLengthMessage field n) t1
  | None => t1
  end.

(** The refinement of a date field: not later than today. *)
Definition notInFuture (h : Host) (v : Value) : bool :=
  match v with
  | VStr dateStr =>
      if negb (dateRegex dateStr) then false
      else match newDate h dateStr with
           | None => false
           | Some inputDate =>
               let adjustedInputDate := inputDate + offsetAt h inputDate * 60000 in
               adjustedInputDate <=? startOfDay_now h
           end
  | _ => false
  end.

(** [val => val === true] *)
Definition isTrue (v : Value) : bool :=
  match v with VBool true => true | _ => false end.

(** [val => val !== null && val !== undefined && val !== ''] *)
Definition isPresent (v : Value) : bool :=
  match v with
  | VUndefined => false
  | VStr s => negb (String.eqb s "")
  | VBool _ => true
  end.

(** The [switch (field.type)]. *)
Definition typeSchema (h : Host) (field : FormField) : ZodType :=
  match type field with
  | text | textarea => withLengths field z_string
  | email => z_email (emailMessage field) z_string
  | tel => withLengths field (z_regex phoneRegex (phoneMessage field) z_string)
  | date =>
      z_refine (notInFuture h) (futureDateMessage field)
        (z_regex dateRegex (dateFormatMessage field) z_string)
  | dropdown | radio => z_string
  | checkbox =>
      if required field
      then z_refine isTrue (requiredMessage field) ZodBoolean
      else z_default (VBool false) (z_optional ZodBoolean)
  end.

(** The body of the inner [forEach]: the schema stored under
    [field.fieldId]. *)
Definition buildFieldSchema (h : Host) (field : FormField) : ZodType :=
  let fieldSchema := typeSchema h field in
  let notCheckbox := negb (FieldType_eqb (type field) checkbox) in
  if required field && notCheckbox then
    if isZodString fieldSchema
    then z_min 1 (requiredMessage field) fieldSchema
    else z_refine isPresent (requiredMessage field) fieldSchema
  else if negb (required field) && notCheckbox then
    if negb (includes (typeName fieldSchema) "Optional")
    then z_optional fieldSchema
    else fieldSchema
  else fieldSchema.

(** Every field of the form, section after section. *)
Definition allFields (secs : list FormSection) : list FormField :=
  concat (map fields secs).

Definition buildSchema (h : Host) (secs : list FormSection) : gmap string ZodType :=
  foldl (fun shape section =>
           foldl (fun shape field => <[fieldId field := buildFieldSchema h field]> shape)
                 shape (fields section))
        ∅ secs.

(** ** Default values ([generateDefaultValues]) *)

Definition defaultValue (field : FormField) : Value :=
  if FieldType_eqb (type field) checkbox then VBool false else VStr "".

Definition generateDefaultValues (form : Form) : gmap string Value :=
  foldl (fun defaults section =>
           foldl (fun defaults field => <[fieldId field := defaultValue field]> defaults)
                 defaults (fields section))
        ∅ (sections form).

(** ** Names react-hook-form keeps as they are *)

(** [\w]: a letter, a digit or the underscore. *)
Definition isWordChar (c : ascii) : bool :=
  isDigit c
  || ((65 <=? code c) && (code c <=? 90))%nat
  || ((97 <=? code c) && (code c <=? 122))%nat
  || Ascii.eqb c "_".

(** The names every object has from its prototype. *)
Definition prototypeNames : list string :=
  ["constructor"; "__proto__"; "hasOwnProperty"; "isPrototypeOf";
   "propertyIsEnumerable"; "toLocaleString"; "toString"; "valueOf";
   "__defineGetter__"; "__defineSetter__"; "__lookupGetter__";
   "__lookupSetter__"].

(** A name react-hook-form reads and writes as one key: not empty, made
    of word characters ([/^\w*$/]), and defined by no prototype.
    [values[name]] and [errors[name]] are then what was stored under the
    name. *)
Definition plainKey (name : string) : Prop :=
  name <> ""
  /\ allChars isWordChar name = true
  /\ existsb (String.eqb name) prototypeNames = false.

(** Every field id of the form is such a name. *)
Definition plainIds (form : Form) : Prop :=
  forall f, f ∈ allFields (sections form) -> plainKey (fieldId f).

(** ** The form ([useForm] with [zodResolver]) *)

(** [values[name]] *)
Definition valueOf (vals : gmap string Value) (name : string) : Value :=
  default VUndefined (vals !! name).

(** The message shown for a field: that of the first issue. *)
Definition fieldError (h : Host) (t : ZodType) (v : Value) : option string :=
  head (issues (parse h t v)).

(** [zodResolver(schema)]: the object schema parses each key of its
    shape against the value stored under that key; the resolver keeps
    the first issue of every key.  Field ids are taken as plain keys:
    react-hook-form keeps the value and the error of a name under that
    name when the name is made of word characters, and under a nested
    path when it holds a dot or a bracket.  The maps below are exact for
    the former ([plainKey]); the properties that follow a value or an
    error from where it is written to where it is read are stated for
    such names. *)
Definition resolver (h : Host) (shape : gmap string ZodType)
    (vals : gmap string Value) : gmap string string :=
  map_imap (fun name t => fieldError h t (valueOf vals name)) shape.

(** The state of the component: the section shown, and the values and
    errors of the form.  [form.formState.errors], read by [onSubmit]
    right after [form.trigger()], is taken to be the errors that call
    stored. *)
Record FormState := {
  currentSectionIndex : Z;
  values : gmap string Value;
  errors : gmap string string
}.

(** What a handler asks of its surroundings: a toast, or the collected
    data of a successful submission. *)
Inductive Effect :=
  | Toast (toastTitle : string)
  | Collected (data : gmap string Value).

Definition hasError (errs : gmap string string) (name : string) : bool :=
  bool_decide (is_Some (errs !! name)).

(** [form.trigger(names)]: runs the resolver, then sets or clears the
    error of each named field; true when none of them has an error. *)
Definition trigger (h : Host) (shape : gmap string ZodType)
    (names : list string) (st : FormState) : bool * FormState :=
  let found := resolver h shape (values st) in
  let errs := foldl (fun e name =>
                       match found !! name with
                       | Some m => <[name := m]> e
                       | None => delete name e
                       end) (errors st) names in
  (negb (existsb (hasError found) names),
   {| currentSectionIndex := currentSectionIndex st;
      values := values st; errors := errs |}).

(** [form.trigger()]: runs the resolver and replaces the errors; true
    when there is none. *)
Definition triggerAll (h : Host) (shape : gmap string ZodType)
    (st : FormState) : bool * FormState :=
  let found := resolver h shape (values st) in
  (bool_decide (found = ∅),
   {| currentSectionIndex := currentSectionIndex st;
      values := values st; errors := found |}).

(** A field's [onChange] with [mode: 'onChange']: stores the value and
    sets or clears the error of that field.  The value is stored under
    the name itself, as react-hook-form does for a [plainKey]. *)
Definition updateField (h : Host) (form : Form) (name : string) (v : Value)
    (st : FormState) : FormState :=
  let vals := <[name := v]> (values st) in
  let found := resolver h (buildSchema h (sections form)) vals in
  {| currentSectionIndex := currentSectionIndex st;
     values := vals;
     errors := match found !! name with
               | Some m => <[name := m]> (errors st)
               | None => delete name (errors st)
               end |}.

(** ** The component ([DynamicForm]) *)

Definition totalSections (form : Form) : Z := Z.of_nat (length (sections form)).

(** [formStructure.sections[i]] *)
Definition sectionAt (form : Form) (i : Z) : option FormSection :=
  if i <? 0 then None else sections form !! Z.to_nat i.

Definition initialState (form : Form) : FormState :=
  {| currentSectionIndex := 0;
     values := generateDefaultValues form;
     errors := ∅ |}.

Definition setCurrentSectionIndex (i : Z) (st : FormState) : FormState :=
  {| currentSectionIndex := i; values := values st; errors := errors st |}.

(** [handleNext]; [None] is the TypeError of reading [fields] of an
    undefined [currentSection]. *)
Definition handleNext (h : Host) (form : Form) (st : FormState)
    : option (FormState * list Effect) :=
  match sectionAt form (currentSectionIndex st) with
  | None => None
  | Some currentSection =>
      let fieldsToValidate := map fieldId (fields currentSection) in
      let '(isValid, st1) :=
        trigger h (buildSchema h (sections form)) fieldsToValidate st in
      if isValid && (currentSectionIndex st <? totalSections form - 1) then
        Some (setCurrentSectionIndex (currentSectionIndex st + 1) st1, [])
      else if negb isValid then
        Some (st1, [Toast "Validation Error"])
      else Some (st1, [])
  end.

Definition handlePrev (st : FormState) : FormState :=
  if currentSectionIndex st >? 0
  then setCurrentSectionIndex (currentSectionIndex st - 1) st
  else st.

(** The [for] loop of [onSubmit]: index of the first section, counted
    from [i], one of whose fields has an error; -1 when there is none.
    [errors[fieldId]] reads the error where the resolver put it when the
    id is a [plainKey]. *)
Fixpoint firstErrorSection (errs : gmap string string)
    (secs : list FormSection) (i : Z) : Z :=
  match secs with
  | [] => -1
  | section :: rest =>
      let sectionFields := map fieldId (fields section) in
      if existsb (hasError errs) sectionFields then i
      else firstErrorSection errs rest (i + 1)
  end.

Definition onSubmit (h : Host) (form : Form) (st : FormState)
    : FormState * list Effect :=
  let '(isFormValid, st1) := triggerAll h (buildSchema h (sections form)) st in
  if negb isFormValid then
    let firstErrorSectionIndex := firstErrorSection (errors st1) (sections form) 0 in
    if negb (firstErrorSectionIndex =? -1)
       && negb (firstErrorSectionIndex =? currentSectionIndex st)
    then (setCurrentSectionIndex firstErrorSectionIndex st1, [Toast "Submission Failed"])
    else (st1, [Toast "Submission Failed"])
  else
    let data := values st1 in
    ({| currentSectionIndex := 0;
        values := generateDefaultValues form;
        errors := ∅ |},
     [Collected data; Toast "Success!"]).

(** [format(new Date(), 'yyyy-MM-dd')]: the text of a calendar date, as
    the date input of the form produces it. *)
Definition digitChar (k : Z) : ascii := ascii_of_nat (Z.to_nat (48 + k)).

Definition format_yyyyMMdd (d : CalDate) : string :=
  string_of_list_ascii
    [digitChar (year d / 1000); digitChar (year d / 100 mod 10);
     digitChar (year d / 10 mod 10); digitChar (year d mod 10);
     "-"%char;
     digitChar (month d / 10); digitChar (month d mod 10);
     "-"%char;
     digitChar (day d / 10); digitChar (day d mod 10)].

(** ** Runs of the engine *)

(** The section index stays within the sections of the form. *)
Definition inRange (form : Form) (st : FormState) : Prop :=
  0 <= currentSectionIndex st < totalSections form.

(** The section index after [handleNext]. *)
Definition nextIndex (h : Host) (form : Form) (st : FormState) : option Z :=
  (fun r => currentSectionIndex (fst r)) <$> handleNext h form st.

(** Filling the form: one [updateField] per entry, in order. *)
Definition fill (h : Host) (form : Form) (entries : list (string * Value))
    (st : FormState) : FormState :=
  foldl (fun st e => updateField h form (fst e) (snd e) st) st entries.

(** The values entered: for each field the last value given to it. *)
Definition entered (entries : list (string * Value)) : gmap string Value :=
  list_to_map (reverse entries).

(** [n] presses of Next. *)
Fixpoint pressNext (h : Host) (form : Form) (n : nat) (st : FormState)
    : option FormState :=
  match n with
  | O => Some st
  | S k =>
      match handleNext h form st with
      | Some (st1, _) => pressNext h form k st1
      | None => None
      end
  end.

(** A field is invalid under given values when the resolver reports an
    error for its id. *)
Definition invalidIn (h : Host) (form : Form) (vals : gmap string Value)
    (name : string) : Prop :=
  is_Some (resolver h (buildSchema h (sections form)) vals !! name).

Definition sectionInvalid (h : Host) (form : Form) (vals : gmap string Value)
    (section : FormSection) : Prop :=
  exists f, f ∈ fields section /\ invalidIn h form vals (fieldId f).

(** ** The rules as the specification words them

    Used to compare the compiled schema with the rule table of the
    specification. *)

(** Calendar order on dates. *)
Definition dateLe (a b : CalDate) : Prop :=
  year a < year b
  \/ (year a = year b /\ month a < month b)
  \/ (year a = year b /\ month a = month b /\ day a <= day b).

(** A decimal digit and its value. *)
Inductive DigitOf : ascii -> Z -> Prop :=
  | Digit0 : DigitOf "0" 0
  | Digit1 : DigitOf "1" 1
  | Digit2 : DigitOf "2" 2
  | Digit3 : DigitOf "3" 3
  | Digit4 : DigitOf "4" 4
  | Digit5 : DigitOf "5" 5
  | Digit6 : DigitOf "6" 6
  | Digit7 : DigitOf "7" 7
  | Digit8 : DigitOf "8" 8
  | Digit9 : DigitOf "9" 9.

(** The string is YYYY-MM-DD, written with the digits of [d]. *)
Definition NamesDate (s : string) (d : CalDate) : Prop :=
  exists y1 y2 y3 y4 m1 m2 d1 d2 a1 a2 a3 a4 b1 b2 c1 c2,
    s = String y1 (String y2 (String y3 (String y4 (String "-"
          (String m1 (String m2 (String "-"
             (String d1 (String d2 EmptyString)))))))))
    /\ DigitOf y1 a1 /\ DigitOf y2 a2 /\ DigitOf y3 a3 /\ DigitOf y4 a4
    /\ DigitOf m1 b1 /\ DigitOf m2 b2 /\ DigitOf d1 c1 /\ DigitOf d2 c2
    /\ year d = 1000 * a1 + 100 * a2 + 10 * a3 + a4
    /\ month d = 10 * b1 + b2
    /\ day d = 10 * c1 + c2.

(** "is text matching YYYY-MM-DD" *)
Definition MatchesYMD (s : string) : Prop := exists d, NamesDate s d.

Definition leapYear (y : Z) : Prop :=
  (y mod 4 = 0 /\ y mod 100 <> 0) \/ y mod 400 = 0.

(** Month [m] of year [y] has [n] days. *)
Definition monthLength (y m n : Z) : Prop :=
  ((m = 1 \/ m = 3 \/ m = 5 \/ m = 7 \/ m = 8 \/ m = 10 \/ m = 12) /\ n = 31)
  \/ ((m = 4 \/ m = 6 \/ m = 9 \/ m = 11) /\ n = 30)
  \/ (m = 2 /\ leapYear y /\ n = 29)
  \/ (m = 2 /\ ~ leapYear y /\ n = 28).

(** "a valid calendar date" *)
Definition CalendarDate (d : CalDate) : Prop :=
  exists n, monthLength (year d) (month d) n /\ 1 <= day d <= n.

(** "is text matching YYYY-MM-DD; parses to a valid calendar date;
    date <= today, inclusive" *)
Definition specDateAccepts (today : CalDate) (s : string) : Prop :=
  exists d, NamesDate s d /\ CalendarDate d /\ dateLe d today.

(** The offsets a zone takes differ by less than a day. *)
Definition zoneBounded (h : Host) : Prop :=
  forall t, -1440 < offsetAt h t - tzOffset h < 1440.

(** A host whose today is on the calendar, in such a zone. *)
Definition soundHost (h : Host) : Prop :=
  CalendarDate (nowLocal h) /\ 0 <= year (nowLocal h) <= 9999 /\ zoneBounded h.

(** The offset at midnight UTC of today is not above the one at local
    midnight of today: so it is on every day the offset does not change. *)
Definition steadyToday (h : Host) : Prop :=
  offsetAt h (utcMidnight (nowLocal h)) <= tzOffset h.

(** "length >= minLength (if set), length <= maxLength (if set)" *)
Definition lengthsOk (field : FormField) (s : string) : Prop :=
  (forall n, minLength field = Some n -> n <= strlen s)
  /\ (forall n, maxLength field = Some n -> strlen s <= n).

(** The constraints of a field other than being required: format and
    lengths, per type, after the rule table. *)
Definition meetsConstraints (h : Host) (field : FormField) (s : string) : Prop :=
  match type field with
  | text | textarea => lengthsOk field s
  | email => isEmail h s = true
  | tel => phoneRegex s = true /\ lengthsOk field s
  | date => specDateAccepts (nowLocal h) s
  | dropdown | radio | checkbox => True
  end.

(** ** The shape of a compiled schema *)

(** The length checks [withLengths] adds, in order. *)
Definition lengthChecks (field : FormField) : list StringCheck :=
  (match minLength field with
   | Some n => [CheckMin n (minLengthMessage field n)]
   | None => []
   end
   ++ match maxLength field with
      | Some n => [CheckMax n (maxLengthMessage field n)]
      | None => []
      end)%list.

(** The checks of the string schema the [switch] builds for a field
    whose type is neither date nor checkbox. *)
Definition typeChecks (field : FormField) : list StringCheck :=
  match type field with
  | text | textarea => lengthChecks field
  | email => [CheckEmail (emailMessage field)]
  | tel => CheckRegex phoneRegex (phoneMessage field) :: lengthChecks field
  | _ => []
  end.

Definition checkMessage (c : StringCheck) : string :=
  match c with
  | CheckMin _ m | CheckMax _ m | CheckEmail m | CheckRegex _ m => m
  end.

(** The messages written into a schema. *)
Fixpoint schemaMessages (t : ZodType) : list string :=
  match t with
  | ZodAny | ZodBoolean => []
  | ZodString cs => map checkMessage cs
  | ZodEffects inner _ m => (schemaMessages inner ++ [m])%list
  | ZodOptional inner => schemaMessages inner
  | ZodDefault inner _ => schemaMessages inner
  end.

(** The types whose schema is a plain string schema. *)
Definition isStringType (ty : FieldType) : Prop :=
  ty <> date /\ ty <> checkbox.

(** The message of a type mismatch, raised by zod itself. *)
Definition isTypeMismatch (msg : string) : Prop :=
  exists expected v, msg = invalidTypeMessage expected v.

(** ** Sample data *)

Definition sampleHost : Host :=
  {| isEmail := fun s => includes s "@";
     tzOffset := -330;
     nowLocal := {| year := 2024; month := 2; day := 29 |};
     offsetAt := fun _ => -330;
     overflowDate := fun d => Some (utcMidnight d) |}.

(** The same day in an engine that refuses a day its month lacks. *)
Definition strictHost : Host :=
  {| isEmail := isEmail sampleHost; tzOffset := -330;
     nowLocal := nowLocal sampleHost;
     offsetAt := fun _ => -330;
     overflowDate := fun _ => None |}.

(** Sydney on 7 April 2024, the day daylight saving ends there at 3 in
    the morning (16:00 UTC of the day before): the offset is -660 minutes
    before that instant and -600 after it. *)
Definition sydneyHost : Host :=
  {| isEmail := isEmail sampleHost;
     tzOffset := -660;
     nowLocal := {| year := 2024; month := 4; day := 7 |};
     offsetAt := fun t => if t <? 1712419200000 then -660 else -600;
     overflowDate := fun d => Some (utcMidnight d) |}.

Definition mkField (id : string) (ty : FieldType) (lab : string) (req : bool)
    (v : option FormFieldValidation) (mx mn : option Z) : FormField :=
  {| fieldId := id; type := ty; label := lab; placeholder := None;
     required := req; dataTestId := id; validation := v; options := None;
     maxLength := mx; minLength := mn |}.

Definition mkSection (n : Z) (fs : list FormField) : FormSection :=
  {| sectionId := n; title := "Section"; description := ""; fields := fs |}.

Definition nameField : FormField :=
  mkField "name" text "Name" true (Some {| message := "Custom" |}) (Some 10) (Some 3).
Definition dobField : FormField := mkField "dob" date "DOB" true None None None.
Definition optionalDobField : FormField := mkField "dob" date "DOB" false None None None.
Definition cityField : FormField := mkField "city" dropdown "City" true None None None.
Definition agreeField : FormField := mkField "agree" checkbox "Agree" true None None None.
Definition nickField : FormField := mkField "name" checkbox "Nick" false None None None.

Definition sampleForm : Form :=
  {| formTitle := "Sample"; formId := "f1"; version := "1";
     sections := [mkSection 1 [nameField]; mkSection 2 [dobField; cityField];
                  mkSection 3 [agreeField]] |}.

Definition duplicateForm : Form :=
  {| formTitle := "Duplicate"; formId := "f2"; version := "1";
     sections := [mkSection 1 [nameField]; mkSection 2 [nickField]] |}.

Definition sampleEntries : list (string * Value) :=
  [("name", VStr "Ada"); ("dob", VStr "2024-02-29"); ("city", VStr "Pune");
   ("agree", VBool true)].

(** Name entered, the rest untouched, while the third section is shown. *)
Definition onlyNameState : FormState :=
  {| currentSectionIndex := 2;
     values := <["name" := VStr "Ada"]> (generateDefaultValues sampleForm);
     errors := ∅ |}.

(** A form whose first section holds one optional date field. *)
Definition optionalForm : Form :=
  {| formTitle := "Optional"; formId := "f3"; version := "1";
     sections := [mkSection 1 [optionalDobField]; mkSection 2 [cityField]] |}.

(** ** Reading the compiled rules and the footer of the card *)

(** A field with other length bounds. *)
Definition setBounds (mn mx : option Z) (f : FormField) : FormField :=
  {| fieldId := fieldId f; type := type f; label := label f;
     placeholder := placeholder f; required := required f;
     dataTestId := dataTestId f; validation := validation f;
     options := options f; maxLength := mx; minLength := mn |}.

(** A field with other options. *)
Definition setOptions (o : option (list FormFieldOption)) (f : FormField) : FormField :=
  {| fieldId := fieldId f; type := type f; label := label f;
     placeholder := placeholder f; required := required f;
     dataTestId := dataTestId f; validation := validation f;
     options := o; maxLength := maxLength f; minLength := minLength f |}.

(** The string is shorter than the declared minimum, longer than the
    declared maximum. *)
Definition tooShort (f : FormField) (s : string) : bool :=
  match minLength f with Some n => strlen s <? n | None => false end.

Definition tooLong (f : FormField) (s : string) : bool :=
  match maxLength f with Some n => strlen s >? n | None => false end.

Definition minLengthText (f : FormField) : string :=
  match minLength f with Some n => minLengthMessage f n | None => "" end.

Definition maxLengthText (f : FormField) : string :=
  match maxLength f with Some n => maxLengthMessage f n | None => "" end.

(** The message of the first rule, in the order given, that fails. *)
Fixpoint firstOf (rules : list (bool * string)) : option string :=
  match rules with
  | [] => None
  | (fails, m) :: rest => if fails then Some m else firstOf rest
  end.

(** The footer: [isLastSection], the [disabled] of Previous, and the
    button shown on the right. *)
Definition isLastSection (form : Form) (st : FormState) : bool :=
  currentSectionIndex st =? totalSections form - 1.

Definition previousDisabled (st : FormState) : bool :=
  currentSectionIndex st =? 0.

Inductive Button := PreviousButton | NextButton | SubmitButton.

(** The buttons a click can reach. *)
Definition buttons (form : Form) (st : FormState) : list Button :=
  ((if previousDisabled st then [] else [PreviousButton])
   ++ [if isLastSection form st then SubmitButton else NextButton])%list.

(** The handler behind each button. *)
Definition press (h : Host) (form : Form) (b : Button) (st : FormState)
    : option (FormState * list Effect) :=
  match b with
  | PreviousButton => Some (handlePrev st, [])
  | NextButton => handleNext h form st
  | SubmitButton => Some (onSubmit h form st)
  end.

(** More sample fields. *)
Definition phoneField : FormField :=
  mkField "phone" tel "Phone" true None (Some 12) (Some 10).
Definition mailField : FormField :=
  mkField "mail" email "Mail" false None (Some 5) (Some 3).
Definition newsField : FormField :=
  mkField "news" checkbox "News" false None None None.

(** A state of the sample form with every field valid, on its first
    section. *)
Definition filledState : FormState :=
  fill sampleHost sampleForm sampleEntries (initialState sampleForm).

(** ** The two API calls ([lib/api/form.ts], [lib/api/user.ts])

    The request itself is left to the host: what [fetch] and
    [response.json()] yield is an input of the model. *)

(** A JSON value as [response.json()] gives it.  Of a number the code
    can observe two things only, which is how it is kept: whether it is
    truthy, and its text under [String()].  Of an object with a repeated
    key the last member counts. *)
#[local] Set Warnings "-register-all".

Inductive Json :=
  | JNull
  | JBool (b : bool)
  | JNum (nonzero : bool) (shown : string)
  | JStr (s : string)
  | JArr (items : list Json)
  | JObj (members : list (string * Json)).

(** [o[name]] for the members of an object; [None] is undefined. *)
Fixpoint member (name : string) (ms : list (string * Json)) : option Json :=
  match ms with
  | [] => None
  | (k, v) :: rest =>
      match member name rest with
      | Some later => Some later
      | None => if String.eqb k name then Some v else None
      end
  end.

(** [j.name] for one of the names the two calls read ([message],
    [form], [sections]), which no prototype defines: the outer [None] is
    the TypeError of reading a property of null, the inner one is
    undefined. *)
Definition readMember (j : Json) (name : string) : option (option Json) :=
  match j with
  | JNull => None
  | JObj ms => Some (member name ms)
  | _ => Some None
  end.

(** Truthiness of a value that may be undefined. *)
Definition truthy (v : option Json) : bool :=
  match v with
  | None | Some JNull => false
  | Some (JBool b) => b
  | Some (JNum nonzero _) => nonzero
  | Some (JStr s) => negb (String.eqb s "")
  | Some (JArr _) | Some (JObj _) => true
  end.

(** [typeof j === 'object'] *)
Definition isObjectType (j : Json) : bool :=
  match j with JNull | JArr _ | JObj _ => true | _ => false end.

(** [Array.isArray(v)] *)
Definition isArray (v : option Json) : bool :=
  match v with Some (JArr _) => true | _ => false end.

(** [items.join(",")] over texts already computed. *)
Fixpoint joinComma (texts : list string) : string :=
  match texts with
  | [] => ""
  | [t] => t
  | t :: rest => t +:+ "," +:+ joinComma rest
  end.

(** [String(j)], the message [new Error(j)] gets. *)
Fixpoint toText (j : Json) : string :=
  match j with
  | JNull => "null"
  | JBool true => "true"
  | JBool false => "false"
  | JNum _ shown => shown
  | JStr s => s
  | JArr items =>
      joinComma (map (fun x => match x with JNull => "" | _ => toText x end) items)
  | JObj _ => "[object Object]"
  end.

(** What can be thrown: an [Error] with its message, or something that
    is not an [Error]. *)
Inductive Thrown :=
  | ErrorWith (errText : string)
  | NotAnError.

Inductive Outcome (A : Type) :=
  | Returns (a : A)
  | Throws (e : Thrown).
Arguments Returns {A} a.
Arguments Throws {A} e.

(** What [response.json()] and [fetch] come to; [FetchRejects] stands
    for anything thrown before there is a response. *)
Inductive BodyRead :=
  | BodyJson (j : Json)
  | BodyRejects (e : Thrown).

Inductive FetchOutcome :=
  | FetchRejects (e : Thrown)
  | FetchResponds (httpStatus : Z) (body : BodyRead).

(** The text an engine gives the TypeError of reading a property of
    null. *)
Record Engine := { cannotReadNull : string -> string }.

(** [response.ok] *)
Definition isOk (httpStatus : Z) : bool :=
  (200 <=? httpStatus) && (httpStatus <=? 299).

Definition statusMessage (httpStatus : Z) : string :=
  "API request failed with status " +:+ pretty httpStatus.

(** [throw new Error(data.message || `API request failed with status
    ${response.status}`)] *)
Definition throwApiError {A : Type} (eng : Engine) (data : Json) (httpStatus : Z)
    : Outcome A :=
  match readMember data "message" with
  | None => Throws (ErrorWith (cannotReadNull eng "message"))
  | Some m =>
      Throws (ErrorWith (match m with
                         | Some j => if truthy m then toText j else statusMessage httpStatus
                         | None => statusMessage httpStatus
                         end))
  end.

(** The test of [getForm] on the data received:
    [!responseData || typeof responseData !== 'object' ||
     !responseData.form || !Array.isArray(responseData.form.sections)].
    Where a property is read the value read from is truthy, so the
    branches of a TypeError are never taken. *)
Definition invalidStructure (responseData : Json) : bool :=
  negb (truthy (Some responseData))
  || negb (isObjectType responseData)
  || match readMember responseData "form" with
     | Some form =>
         negb (truthy form)
         || match form with
            | Some formJson =>
                match readMember formJson "sections" with
                | Some secs => negb (isArray secs)
                | None => true
                end
            | None => true
            end
     | None => true
     end.

(** The [catch] of both calls: an [Error] is thrown again with a
    prefix, anything else is replaced. *)
Definition rethrow {A : Type} (prefix unknown : string) (r : Outcome A) : Outcome A :=
  match r with
  | Returns a => Returns a
  | Throws (ErrorWith m) => Throws (ErrorWith (prefix +:+ m))
  | Throws NotAnError => Throws (ErrorWith unknown)
  end.

Definition getForm (eng : Engine) (o : FetchOutcome) : Outcome Json :=
  rethrow "Failed to fetch form: "
    "An unknown error occurred while fetching the form."
    match o with
    | FetchRejects e => Throws e
    | FetchResponds httpStatus body =>
        if negb (isOk httpStatus) then
          let errorData :=
            match body with
            | BodyJson j => j
            | BodyRejects _ => JObj [("message", JStr (statusMessage httpStatus))]
            end in
          throwApiError eng errorData httpStatus
        else
          match body with
          | BodyRejects e => Throws e
          | BodyJson responseData =>
              if invalidStructure responseData
              then Throws (ErrorWith "Invalid form structure received from API.")
              else Returns responseData
          end
    end.

(** [j === "User created successfully"] *)
Definition isSuccessMessage (v : option Json) : bool :=
  match v with
  | Some (JStr s) => String.eqb s "User created successfully"
  | _ => false
  end.

Definition createUser (eng : Engine) (o : FetchOutcome) : Outcome bool :=
  rethrow "Failed to register user: "
    "An unknown error occurred during user registration."
    match o with
    | FetchRejects e => Throws e
    | FetchResponds httpStatus body =>
        match body with
        | BodyRejects e => Throws e
        | BodyJson responseData =>
            if negb (isOk httpStatus) then
              throwApiError eng responseData httpStatus
            else
              match readMember responseData "message" with
              | None => Throws (ErrorWith (cannotReadNull eng "message"))
              | Some m =>
                  Returns (isSuccessMessage m
                           || (httpStatus =? 200) || (httpStatus =? 201))
              end
        end
    end.

(** ** The form page ([FormPage]) *)

Record PageState := {
  formStructure : option Json;
  isLoading : bool;
  error : option string
}.

Definition initialPage : PageState :=
  {| formStructure := None; isLoading := true; error := None |}.

Definition setFormStructure (v : option Json) (st : PageState) : PageState :=
  {| formStructure := v; isLoading := isLoading st; error := error st |}.
Definition setIsLoading (b : bool) (st : PageState) : PageState :=
  {| formStructure := formStructure st; isLoading := b; error := error st |}.
Definition setError (e : option string) (st : PageState) : PageState :=
  {| formStructure := formStructure st; isLoading := isLoading st; error := e |}.

(** The states a list of updates goes through, one per update. *)
Fixpoint statesThrough (updates : list (PageState -> PageState)) (st : PageState)
    : list PageState :=
  match updates with
  | [] => []
  | u :: rest => u st :: statesThrough rest (u st)
  end.

(** What the effect asks of its surroundings. *)
Inductive PageRequest :=
  | RedirectLater (path : string)
  | FetchFormFor (rollNumber : string).

(** [!rollNumber] is false *)
Definition hasRollNumber (rollNumber : option string) : bool :=
  match rollNumber with
  | Some r => negb (String.eqb r "")
  | None => false
  end.

(** The updates of the effect, in the order they are made.  The roll
    number is what [sessionStorage.getItem('rollNumber')] returns; the
    outcome of the fetch is consulted only when there is one. *)
Definition pageUpdates (eng : Engine) (rollNumber : option string)
    (o : FetchOutcome) : list (PageState -> PageState) :=
  if negb (hasRollNumber rollNumber) then
    [setError (Some "You must log in first.")]
  else
    ([setIsLoading true; setError None]
     ++ match getForm eng o with
        | Returns response =>
            match readMember response "form" with
            | Some form => [setFormStructure form]
            | None => [setError (Some (cannotReadNull eng "form"))]
            end
        | Throws (ErrorWith m) => [setError (Some m)]
        | Throws NotAnError =>
            [setError (Some "An unexpected error occurred while fetching the form.")]
        end
     ++ [setIsLoading false])%list.

Definition pageRequests (rollNumber : option string) : list PageRequest :=
  match rollNumber with
  | Some r => if String.eqb r "" then [RedirectLater "/"] else [FetchFormFor r]
  | None => [RedirectLater "/"]
  end.

(** Every state the page is rendered in: the first one, then one per
    update. *)
Definition pageStates (eng : Engine) (rollNumber : option string)
    (o : FetchOutcome) : list PageState :=
  initialPage :: statesThrough (pageUpdates eng rollNumber o) initialPage.

Definition finalPage (eng : Engine) (rollNumber : option string)
    (o : FetchOutcome) : PageState :=
  foldl (fun st u => u st) initialPage (pageUpdates eng rollNumber o).

(** What the page puts on the screen.  [FormView] is the [DynamicForm]
    element with the form handed to it: what that element renders, and
    that it renders at all, is the business of [DynamicForm], which throws
    for a form without sections.  [PlainText] is the text React renders
    for a number an [&&] chain stops at. *)
Inductive View :=
  | LoadingSkeleton
  | ErrorAlert (alertText : string)
  | FormView (form : Json)
  | PlainText (shown : string)
  | RedirectingText
  | NoFormDataText.

Definition errorShown (e : option string) : bool :=
  match e with Some shown => negb (String.eqb shown "") | None => false end.

Definition pageView (rollNumber : option string) (st : PageState) : list View :=
  let idle := negb (isLoading st) && negb (errorShown (error st)) in
  ((if isLoading st then [LoadingSkeleton] else [])
   ++ match error st with
      | Some shown => if errorShown (error st) then [ErrorAlert shown] else []
      | None => []
      end
   ++ match formStructure st with
      | Some form =>
          if idle then
            if truthy (formStructure st) then [FormView form]
            else match form with JNum _ shown => [PlainText shown] | _ => [] end
          else []
      | None => []
      end
   ++ (if idle && negb (truthy (formStructure st)) && negb (hasRollNumber rollNumber)
       then [RedirectingText] else [])
   ++ (if idle && negb (truthy (formStructure st)) && hasRollNumber rollNumber
       then [NoFormDataText] else []))%list.

(** *** The JSON of a form description

    What [response.json()] gives for a form that has the shape the types
    of [lib/api/form.ts] declare. *)

Definition numberJson (n : Z) : Json := JNum (negb (n =? 0)) (pretty n).

Definition optionalMember {A : Type} (name : string) (enc : A -> Json)
    (o : option A) : list (string * Json) :=
  match o with Some a => [(name, enc a)] | None => [] end.

Definition typeText (ty : FieldType) : string :=
  match ty with
  | text => "text" | tel => "tel" | email => "email" | textarea => "textarea"
  | date => "date" | dropdown => "dropdown" | radio => "radio"
  | checkbox => "checkbox"
  end.

Definition optionJson (o : FormFieldOption) : Json :=
  JObj ([("value", JStr (optValue o)); ("label", JStr (optLabel o))]
        ++ optionalMember "dataTestId" JStr (optDataTestId o)).

Definition fieldJson (f : FormField) : Json :=
  JObj ([("fieldId", JStr (fieldId f)); ("type", JStr (typeText (type f)));
         ("label", JStr (label f))]
        ++ optionalMember "placeholder" JStr (placeholder f)
        ++ [("required", JBool (required f)); ("dataTestId", JStr (dataTestId f))]
        ++ optionalMember "validation"
             (fun v => JObj [("message", JStr (message v))]) (validation f)
        ++ optionalMember "options" (fun os => JArr (map optionJson os)) (options f)
        ++ optionalMember "maxLength" numberJson (maxLength f)
        ++ optionalMember "minLength" numberJson (minLength f)).

Definition sectionJson (sec : FormSection) : Json :=
  JObj [("sectionId", numberJson (sectionId sec)); ("title", JStr (title sec));
        ("description", JStr (description sec));
        ("fields", JArr (map fieldJson (fields sec)))].

Definition jsonOfForm (form : Form) : Json :=
  JObj [("formTitle", JStr (formTitle form)); ("formId", JStr (formId form));
        ("version", JStr (version form));
        ("sections", JArr (map sectionJson (sections form)))].

(** Sample responses. *)
Definition sampleEngine : Engine :=
  {| cannotReadNull := fun name =>
       "Cannot read properties of null (reading '" +:+ name +:+ "')" |}.

Definition sampleFormJson : Json :=
  JObj [("message", JStr "Form fetched");
        ("form", JObj [("formTitle", JStr "Sample"); ("sections", JArr [])])].

(** The response that carries the sample form. *)
Definition sampleResponse : Json :=
  JObj [("message", JStr "Form fetched"); ("form", jsonOfForm sampleForm)].

(** * Properties *)

(** ** Maps built by inserting one entry per field *)

Section InsertPerField.
Context {V : Type} (val : FormField -> V).

Let put (acc : gmap string V) (f : FormField) : gmap string V :=
  <[fieldId f := val f]> acc.

Lemma foldl_sections_flat (m : gmap string V) (secs : list FormSection) :
  foldl (fun acc section => foldl put acc (fields section)) m secs
  = foldl put m (allFields secs).
Proof.
  revert m. induction secs as [|s secs IH]; intros m; simpl; [done|].
  rewrite IH. unfold allFields. simpl. by rewrite foldl_app.
Qed.

Lemma lookup_foldl_put_notin (m : gmap string V) (l : list FormField) (k : string) :
  k ∉ map fieldId l -> foldl put m l !! k = m !! k.
Proof.
  revert m. induction l as [|f l IH]; intros m Hk; simpl; [done|].
  simpl in Hk. apply not_elem_of_cons in Hk as [Hne Hk].
  rewrite IH by done. unfold put. by rewrite lookup_insert_ne.
Qed.

Lemma lookup_foldl_put_last (m : gmap string V) (l1 l2 : list FormField) (f : FormField) :
  fieldId f ∉ map fieldId l2 ->
  foldl put m (l1 ++ f :: l2) !! fieldId f = Some (val f).
Proof.
  intros Hk. rewrite foldl_app. simpl.
  rewrite lookup_foldl_put_notin by done.
  unfold put. by rewrite lookup_insert_eq.
Qed.

Lemma lookup_foldl_put_Some (m : gmap string V) (l : list FormField) (k : string) (v : V) :
  foldl put m l !! k = Some v ->
  m !! k = Some v \/ exists f, f ∈ l /\ fieldId f = k /\ v = val f.
Proof.
  revert m. induction l as [|f l IH]; intros m Hv; simpl in *; [by left|].
  apply IH in Hv as [Hv | (g & Hg & Hid & Hval)].
  - unfold put in Hv. destruct (decide (fieldId f = k)) as [Heq|Hne].
    + subst k. rewrite lookup_insert_eq in Hv. injection Hv as <-.
      right. exists f. split; [by left|done].
    + rewrite lookup_insert_ne in Hv by done. by left.
  - right. exists g. split; [by right|done].
Qed.

Lemma dom_foldl_put (m : gmap string V) (l : list FormField) :
  dom (foldl put m l) = dom m ∪ list_to_set (map fieldId l).
Proof.
  revert m. induction l as [|f l IH]; intros m; simpl.
  - by rewrite (right_id_L ∅ (∪)).
  - rewrite IH. unfold put. rewrite dom_insert_L.
    by rewrite (comm_L (∪) {[fieldId f]} (dom m)), (assoc_L (∪)).
Qed.

Lemma lookup_foldl_put_nodup (l : list FormField) (f : FormField) :
  NoDup (map fieldId l) -> f ∈ l -> foldl put ∅ l !! fieldId f = Some (val f).
Proof.
  intros Hnd Hf. apply list_elem_of_split in Hf as (l1 & l2 & ->).
  apply lookup_foldl_put_last.
  rewrite map_app in Hnd. apply NoDup_app in Hnd as (_ & _ & Hnd).
  simpl in Hnd. by apply NoDup_cons in Hnd as [Hnd _].
Qed.
End InsertPerField.

Lemma buildSchema_flat (h : Host) (secs : list FormSection) :
  buildSchema h secs
  = foldl (fun acc f => <[fieldId f := buildFieldSchema h f]> acc) ∅ (allFields secs).
Proof. unfold buildSchema. apply foldl_sections_flat. Qed.

Lemma generateDefaultValues_flat (form : Form) :
  generateDefaultValues form
  = foldl (fun acc f => <[fieldId f := defaultValue f]> acc) ∅ (allFields (sections form)).
Proof. unfold generateDefaultValues. apply foldl_sections_flat. Qed.

Lemma lookup_resolver (h : Host) (shape : gmap string ZodType)
    (vals : gmap string Value) (name : string) :
  resolver h shape vals !! name
  = shape !! name ≫= fun t => fieldError h t (valueOf vals name).
Proof. unfold resolver. by rewrite map_lookup_imap. Qed.

(** ** Default values and duplicate field ids *)





(** ** The resolver and the section scan *)

Lemma elem_of_allFields (secs : list FormSection) (f : FormField) :
  f ∈ allFields secs <-> exists s, s ∈ secs /\ f ∈ fields s.
Proof.
  unfold allFields. induction secs as [|s secs IH]; simpl.
  - split; [intros H; by apply elem_of_nil in H|].
    intros (s & Hs & _). by apply elem_of_nil in Hs.
  - rewrite elem_of_app, IH. split.
    + intros [Hf | (s' & Hs' & Hf)].
      * exists s. split; [by left|done].
      * exists s'. split; [by right|done].
    + intros (s' & Hs' & Hf). apply elem_of_cons in Hs' as [-> | Hs'].
      * by left.
      * right. by exists s'.
Qed.

(** An error is always the error of some field of the form. *)
Lemma resolver_error_has_field (h : Host) (form : Form)
    (vals : gmap string Value) (name : string) :
  invalidIn h form vals name ->
  exists f, f ∈ allFields (sections form) /\ fieldId f = name.
Proof.
  unfold invalidIn. rewrite lookup_resolver. intros [m Hm].
  destruct (buildSchema h (sections form) !! name) as [t|] eqn:Ht; [|done].
  rewrite buildSchema_flat in Ht.
  apply lookup_foldl_put_Some in Ht as [Ht | (f & Hf & Hid & _)].
  - by rewrite lookup_empty in Ht.
  - by exists f.
Qed.

(** Whether a field is invalid depends on the value of that field only. *)
Lemma invalidIn_value (h : Host) (form : Form)
    (vals1 vals2 : gmap string Value) (name : string) :
  vals1 !! name = vals2 !! name ->
  resolver h (buildSchema h (sections form)) vals1 !! name
  = resolver h (buildSchema h (sections form)) vals2 !! name.
Proof.
  intros Heq. rewrite !lookup_resolver. unfold valueOf. by rewrite Heq.
Qed.

Lemma hasError_true (errs : gmap string string) (name : string) :
  hasError errs name = true <-> is_Some (errs !! name).
Proof.
  unfold hasError. split.
  - intros H. apply bool_decide_eq_true_1 in H. exact H.
  - intros H. by apply bool_decide_eq_true_2.
Qed.

Lemma existsb_hasError (errs : gmap string string) (fs : list FormField) :
  existsb (hasError errs) (map fieldId fs) = true
  <-> exists f, f ∈ fs /\ is_Some (errs !! fieldId f).
Proof.
  rewrite existsb_exists. split.
  - intros (name & Hin & Herr). apply in_map_iff in Hin as (f & <- & Hf).
    exists f. split; [by apply list_elem_of_In|by apply hasError_true].
  - intros (f & Hf & Herr). exists (fieldId f). split.
    + apply in_map. by apply list_elem_of_In.
    + by apply hasError_true.
Qed.

Lemma existsb_hasError_false (errs : gmap string string) (fs : list FormField) :
  existsb (hasError errs) (map fieldId fs) = false
  <-> ~ exists f, f ∈ fs /\ is_Some (errs !! fieldId f).
Proof.
  rewrite <- existsb_hasError. by destruct (existsb _ _).
Qed.

(** What the scan returns: -1 when no section has an error, otherwise
    the position of the first section that has one. *)
Lemma firstErrorSection_spec (errs : gmap string string)
    (secs : list FormSection) (i : Z) :
  (firstErrorSection errs secs i = -1
   /\ forall s, s ∈ secs -> existsb (hasError errs) (map fieldId (fields s)) = false)
  \/ exists (k : nat) (s : FormSection),
       firstErrorSection errs secs i = i + Z.of_nat k
       /\ secs !! k = Some s
       /\ existsb (hasError errs) (map fieldId (fields s)) = true
       /\ forall (j : nat) sj, (j < k)%nat -> secs !! j = Some sj ->
            existsb (hasError errs) (map fieldId (fields sj)) = false.
Proof.
  revert i. induction secs as [|s secs IH]; intros i; simpl.
  - left. split; [done|]. intros s Hs. by apply elem_of_nil in Hs.
  - destruct (existsb (hasError errs) (map fieldId (fields s))) eqn:Hs.
    + right. exists O, s. repeat split; [lia|done|]. intros j sj Hj. lia.
    + destruct (IH (i + 1)) as [[Hnone Hall] | (k & s' & Hk & Hlook & Herr & Hmin)].
      * left. split; [done|]. intros s' Hs'.
        apply elem_of_cons in Hs' as [-> | Hs']; [done|by apply Hall].
      * right. exists (S k), s'. repeat split; [lia|done|done|].
        intros j sj Hj Hlook'. destruct j as [|j]; simpl in Hlook'.
        -- by injection Hlook' as <-.
        -- apply (Hmin j); [lia|done].
Qed.

Lemma sectionAt_nat (form : Form) (k : nat) :
  sectionAt form (Z.of_nat k) = sections form !! k.
Proof.
  unfold sectionAt. destruct (Z.ltb_spec (Z.of_nat k) 0); [lia|].
  by rewrite Nat2Z.id.
Qed.

Lemma sectionAt_Some (form : Form) (i : Z) (s : FormSection) :
  sectionAt form i = Some s -> 0 <= i < totalSections form.
Proof.
  unfold sectionAt, totalSections. destruct (Z.ltb_spec i 0); [done|].
  intros Hs. apply lookup_lt_Some in Hs. lia.
Qed.

Lemma sectionAt_inRange (form : Form) (i : Z) :
  0 <= i < totalSections form -> exists s, sectionAt form i = Some s.
Proof.
  unfold sectionAt, totalSections. intros Hi.
  destruct (Z.ltb_spec i 0); [lia|].
  destruct (lookup_lt_is_Some_2 (sections form) (Z.to_nat i)) as [s Hs]; [lia|].
  by exists s.
Qed.

(** ** The handlers *)

(** [handleNext] in one equation: it advances exactly when no field of
    the current section has an error and the section is not the last. *)
Lemma handleNext_index (h : Host) (form : Form) (st : FormState)
    (section : FormSection) :
  sectionAt form (currentSectionIndex st) = Some section ->
  exists st1 eff,
    handleNext h form st = Some (st1, eff)
    /\ values st1 = values st
    /\ currentSectionIndex st1
       = if negb (existsb (hasError (resolver h (buildSchema h (sections form)) (values st)))
                          (map fieldId (fields section)))
            && (currentSectionIndex st <? totalSections form - 1)
         then currentSectionIndex st + 1
         else currentSectionIndex st.
Proof.
  intros Hs. unfold handleNext. rewrite Hs. unfold trigger.
  destruct (negb (existsb _ _)) eqn:Hvalid; simpl.
  - destruct (currentSectionIndex st <? totalSections form - 1); simpl;
      eexists _, _; split; try reflexivity; by split.
  - eexists _, _; split; try reflexivity; by split.
Qed.

Lemma nextIndex_eq (h : Host) (form : Form) (st : FormState)
    (section : FormSection) :
  sectionAt form (currentSectionIndex st) = Some section ->
  nextIndex h form st
  = Some (if negb (existsb (hasError (resolver h (buildSchema h (sections form)) (values st)))
                           (map fieldId (fields section)))
             && (currentSectionIndex st <? totalSections form - 1)
          then currentSectionIndex st + 1
          else currentSectionIndex st).
Proof.
  intros Hs. destruct (handleNext_index h form st section Hs)
    as (st1 & eff & Hnext & _ & Hidx).
  unfold nextIndex. rewrite Hnext. simpl. by rewrite Hidx.
Qed.

Lemma onSubmit_invalid (h : Host) (form : Form) (st : FormState) :
  resolver h (buildSchema h (sections form)) (values st) <> ∅ ->
  let errs := resolver h (buildSchema h (sections form)) (values st) in
  let first := firstErrorSection errs (sections form) 0 in
  onSubmit h form st
  = ({| currentSectionIndex := if first =? -1 then currentSectionIndex st else first;
        values := values st; errors := errs |},
     [Toast "Submission Failed"]).
Proof.
  intros Hne errs first. unfold onSubmit, triggerAll.
  rewrite bool_decide_eq_false_2 by done. simpl. fold errs. fold first.
  destruct (Z.eqb_spec first (-1)) as [Hm|Hm]; simpl; [done|].
  destruct (Z.eqb_spec first (currentSectionIndex st)) as [He|He]; simpl.
  - by rewrite He.
  - done.
Qed.

Lemma onSubmit_valid (h : Host) (form : Form) (st : FormState) :
  resolver h (buildSchema h (sections form)) (values st) = ∅ ->
  onSubmit h form st
  = (initialState form, [Collected (values st); Toast "Success!"]).
Proof.
  intros He. unfold onSubmit, triggerAll.
  rewrite bool_decide_eq_true_2 by done. done.
Qed.

(** C1: in a form whose field ids are plain keys, when [onSubmit] runs
    and some field fails validation, the section index becomes the index
    of the first section, in the order of the description, that holds an
    invalid field (it is written only when it differs from the current
    index, so in either case it ends there), the values are kept, and no
    data is collected for submission. *)
Theorem submit_failure_first_invalid_section (h : Host) (form : Form)
    (st : FormState) :
  plainIds form ->
  (exists f, f ∈ allFields (sections form)
             /\ invalidIn h form (values st) (fieldId f)) ->
  exists (i : nat) (section : FormSection),
    sections form !! i = Some section
    /\ sectionInvalid h form (values st) section
    /\ (forall (j : nat) sj, (j < i)%nat -> sections form !! j = Some sj ->
          ~ sectionInvalid h form (values st) sj)
    /\ currentSectionIndex (fst (onSubmit h form st)) = Z.of_nat i
    /\ values (fst (onSubmit h form st)) = values st
    /\ forall data, Collected data ∉ snd (onSubmit h form st).
Proof.
  intros _ (f & Hf & Hinv).
  set (errs := resolver h (buildSchema h (sections form)) (values st)).
  assert (Hne : errs <> ∅).
  { intros He. destruct Hinv as [m Hm]. fold errs in Hm.
    by rewrite He, lookup_empty in Hm. }
  rewrite (onSubmit_invalid h form st Hne). simpl. fold errs.
  destruct (firstErrorSection_spec errs (sections form) 0)
    as [[_ Hall] | (k & s & Hk & Hlook & Herr & Hmin)].
  - exfalso. apply elem_of_allFields in Hf as (s & Hs & Hfs).
    specialize (Hall s Hs). apply existsb_hasError_false in Hall.
    apply Hall. by exists f.
  - exists k, s. rewrite Hk.
    destruct (Z.eqb_spec (0 + Z.of_nat k) (-1)); [lia|].
    split; [done|]. split; [by apply existsb_hasError in Herr|].
    split.
    { intros j sj Hj Hsj. specialize (Hmin j sj Hj Hsj).
      by apply existsb_hasError_false in Hmin. }
    split; [lia|]. split; [done|].
    intros data Hin. apply list_elem_of_singleton in Hin. discriminate.
Qed.

Lemma submit_failure_first_invalid_section_witness :
  (plainIds sampleForm
   /\ exists f, f ∈ allFields (sections sampleForm)
                /\ invalidIn sampleHost sampleForm (values onlyNameState) (fieldId f))
  /\ exists (i : nat) (section : FormSection),
       sections sampleForm !! i = Some section
       /\ sectionInvalid sampleHost sampleForm (values onlyNameState) section
       /\ (forall (j : nat) sj, (j < i)%nat -> sections sampleForm !! j = Some sj ->
             ~ sectionInvalid sampleHost sampleForm (values onlyNameState) sj)
       /\ currentSectionIndex (fst (onSubmit sampleHost sampleForm onlyNameState))
          = Z.of_nat i
       /\ values (fst (onSubmit sampleHost sampleForm onlyNameState))
          = values onlyNameState
       /\ forall data,
            Collected data ∉ snd (onSubmit sampleHost sampleForm onlyNameState).
Proof.
  assert (Hinv : exists f, f ∈ allFields (sections sampleForm)
            /\ invalidIn sampleHost sampleForm (values onlyNameState) (fieldId f)).
  { exists dobField. split.
    - right. left.
    - unfold invalidIn. vm_compute. eexists. reflexivity. }
  assert (Hplain : plainIds sampleForm).
  { intros f Hf. vm_compute in Hf.
    repeat (apply elem_of_cons in Hf as [-> | Hf]);
      [ .. | by apply elem_of_nil in Hf ];
      (split; [discriminate | split; reflexivity]). }
  split; [by split|].
  exact (submit_failure_first_invalid_section sampleHost sampleForm onlyNameState
           Hplain Hinv).
Defined.

(** Two runs of the scan on the sample form, both from the third
    section: with the first section valid and the two others not, Submit
    shows the second section (index 1); with every section invalid it
    shows the first (index 0). *)
Example submit_failure_examples :
  currentSectionIndex (fst (onSubmit sampleHost sampleForm onlyNameState)) = 1
  /\ currentSectionIndex
       (fst (onSubmit sampleHost sampleForm
               (setCurrentSectionIndex 2 (initialState sampleForm)))) = 0.
Proof. split; vm_compute; reflexivity. Qed.

(** C2: [handleNext] leaves the section index unchanged whenever a field
    of the current section is invalid, and whether it advances depends
    only on the validity of the fields of the current section: two states
    at the same section whose current-section fields agree in validity,
    or in value, end at the same index, whatever the other fields hold. *)
Theorem next_gated_by_current_section (h : Host) (form : Form)
    (st : FormState) (section : FormSection) :
  sectionAt form (currentSectionIndex st) = Some section ->
  (sectionInvalid h form (values st) section ->
   nextIndex h form st = Some (currentSectionIndex st))
  /\ (forall st2, currentSectionIndex st2 = currentSectionIndex st ->
        (forall f, f ∈ fields section ->
           (invalidIn h form (values st2) (fieldId f)
            <-> invalidIn h form (values st) (fieldId f))) ->
        nextIndex h form st2 = nextIndex h form st)
  /\ (forall st2, currentSectionIndex st2 = currentSectionIndex st ->
        (forall f, f ∈ fields section ->
           values st2 !! fieldId f = values st !! fieldId f) ->
        nextIndex h form st2 = nextIndex h form st).
Proof.
  intros Hs.
  assert (Hvalidity : forall st2, currentSectionIndex st2 = currentSectionIndex st ->
            (forall f, f ∈ fields section ->
               (invalidIn h form (values st2) (fieldId f)
                <-> invalidIn h form (values st) (fieldId f))) ->
            nextIndex h form st2 = nextIndex h form st).
  { intros st2 Hidx Hsame.
    rewrite (nextIndex_eq h form st section Hs).
    rewrite (nextIndex_eq h form st2 section) by (by rewrite Hidx).
    rewrite Hidx.
    assert (Hex : existsb (hasError (resolver h (buildSchema h (sections form)) (values st2)))
                    (map fieldId (fields section))
                  = existsb (hasError (resolver h (buildSchema h (sections form)) (values st)))
                      (map fieldId (fields section))).
    { apply eq_true_iff_eq. rewrite !existsb_hasError.
      split; intros (f & Hf & Herr); exists f; (split; [done|]);
        by apply (Hsame f Hf). }
    by rewrite Hex. }
  split; [|split; [exact Hvalidity|]].
  - intros Hinv. rewrite (nextIndex_eq h form st section Hs).
    assert (Hex : existsb (hasError (resolver h (buildSchema h (sections form)) (values st)))
                    (map fieldId (fields section)) = true)
      by (by apply existsb_hasError).
    by rewrite Hex.
  - intros st2 Hidx Hvals. apply Hvalidity; [done|].
    intros f Hf. unfold invalidIn.
    by rewrite (invalidIn_value h form (values st2) (values st) (fieldId f) (Hvals f Hf)).
Qed.

Lemma next_gated_by_current_section_witness :
  sectionAt sampleForm (currentSectionIndex onlyNameState)
    = Some (mkSection 3 [agreeField])
  /\ sectionInvalid sampleHost sampleForm (values onlyNameState)
       (mkSection 3 [agreeField])
  /\ nextIndex sampleHost sampleForm onlyNameState = Some 2.
Proof.
  assert (Hs : sectionAt sampleForm (currentSectionIndex onlyNameState)
               = Some (mkSection 3 [agreeField])) by reflexivity.
  assert (Hinv : sectionInvalid sampleHost sampleForm (values onlyNameState)
                   (mkSection 3 [agreeField])).
  { exists agreeField. split; [by left|].
    unfold invalidIn. vm_compute. eexists. reflexivity. }
  split; [exact Hs|]. split; [exact Hinv|].
  exact (proj1 (next_gated_by_current_section sampleHost sampleForm
                  onlyNameState (mkSection 3 [agreeField]) Hs) Hinv).
Defined.

(** Next on the first section of the sample form: it advances once the
    name is valid although the later sections are not, and it does not
    while the name is empty. *)
Example next_examples :
  nextIndex sampleHost sampleForm (setCurrentSectionIndex 0 onlyNameState) = Some 1
  /\ nextIndex sampleHost sampleForm (initialState sampleForm) = Some 0.
Proof. split; vm_compute; reflexivity. Qed.

(** ** The section index stays in range *)

Lemma updateField_index (h : Host) (form : Form) (name : string) (v : Value)
    (st : FormState) :
  currentSectionIndex (updateField h form name v st) = currentSectionIndex st.
Proof. reflexivity. Qed.

Lemma onSubmit_inRange (h : Host) (form : Form) (st : FormState) :
  inRange form st -> inRange form (fst (onSubmit h form st)).
Proof.
  intros Hin. unfold inRange in *.
  destruct (decide (resolver h (buildSchema h (sections form)) (values st) = ∅))
    as [He|Hne].
  - rewrite (onSubmit_valid h form st He). simpl. lia.
  - rewrite (onSubmit_invalid h form st Hne). simpl.
    destruct (firstErrorSection_spec
                (resolver h (buildSchema h (sections form)) (values st))
                (sections form) 0)
      as [[Hnone _] | (k & s & Hk & Hlook & _ & _)].
    + rewrite Hnone. simpl. lia.
    + rewrite Hk. apply lookup_lt_Some in Hlook. unfold totalSections.
      destruct (Z.eqb_spec (0 + Z.of_nat k) (-1)); lia.
Qed.

(** C9: for a form with at least one section, the section index of the
    initial state is in range, and every transition from a state whose
    index is in range ends in such a state; Previous on the first section
    changes nothing, and Next on the last section keeps the index, valid
    section or not. *)
Theorem section_index_invariant (h : Host) (form : Form) (st : FormState) :
  sections form <> [] ->
  inRange form st ->
  inRange form (initialState form)
  /\ (exists st1 eff, handleNext h form st = Some (st1, eff) /\ inRange form st1)
  /\ inRange form (handlePrev st)
  /\ inRange form (fst (onSubmit h form st))
  /\ (forall name v, inRange form (updateField h form name v st))
  /\ (currentSectionIndex st = 0 -> handlePrev st = st)
  /\ (currentSectionIndex st = totalSections form - 1 ->
      nextIndex h form st = Some (currentSectionIndex st)).
Proof.
  intros Hne Hin.
  destruct (sectionAt_inRange form _ Hin) as [section Hs].
  destruct (handleNext_index h form st section Hs) as (st1 & eff & Hnext & _ & Hidx).
  unfold inRange in *.
  split.
  { unfold totalSections. simpl. destruct (sections form); [done|]. simpl. lia. }
  split.
  { exists st1, eff. split; [done|]. rewrite Hidx.
    destruct (negb _); simpl; [|lia].
    destruct (Z.ltb_spec (currentSectionIndex st) (totalSections form - 1)); lia. }
  split.
  { unfold handlePrev. destruct (Z.gtb_spec (currentSectionIndex st) 0); simpl; lia. }
  split; [by apply onSubmit_inRange|].
  split; [intros name v; by rewrite updateField_index|].
  split.
  { intros H0. unfold handlePrev. by rewrite H0. }
  intros Hlast. rewrite (nextIndex_eq h form st section Hs).
  destruct (Z.ltb_spec (currentSectionIndex st) (totalSections form - 1)); [lia|].
  by rewrite andb_false_r.
Qed.

Lemma section_index_invariant_witness :
  (sections sampleForm <> [] /\ inRange sampleForm onlyNameState)
  /\ inRange sampleForm (initialState sampleForm)
  /\ (exists st1 eff, handleNext sampleHost sampleForm onlyNameState = Some (st1, eff)
                      /\ inRange sampleForm st1)
  /\ inRange sampleForm (handlePrev onlyNameState)
  /\ inRange sampleForm (fst (onSubmit sampleHost sampleForm onlyNameState))
  /\ (forall name v, inRange sampleForm (updateField sampleHost sampleForm name v onlyNameState))
  /\ (currentSectionIndex onlyNameState = 0 -> handlePrev onlyNameState = onlyNameState)
  /\ (currentSectionIndex onlyNameState = totalSections sampleForm - 1 ->
      nextIndex sampleHost sampleForm onlyNameState
      = Some (currentSectionIndex onlyNameState)).
Proof.
  assert (H1 : sections sampleForm <> []) by discriminate.
  assert (H2 : inRange sampleForm onlyNameState)
    by (unfold inRange, totalSections; simpl; lia).
  split; [by split|].
  exact (section_index_invariant sampleHost sampleForm onlyNameState H1 H2).
Defined.

(** The two ends of the sample form: Previous on the first section
    returns the state as it is, and Next on the last section stays there
    although every field is valid. *)
Example boundary_examples :
  handlePrev (initialState sampleForm) = initialState sampleForm
  /\ nextIndex sampleHost sampleForm
       (setCurrentSectionIndex 2
          (fill sampleHost sampleForm sampleEntries (initialState sampleForm)))
     = Some 2.
Proof. split; vm_compute; reflexivity. Qed.

(** ** Filling the form, pressing Next, submitting *)

Lemma fill_index (h : Host) (form : Form) (entries : list (string * Value))
    (st : FormState) :
  currentSectionIndex (fill h form entries st) = currentSectionIndex st.
Proof.
  revert st. induction entries as [|e entries IH]; intros st; simpl; [done|].
  unfold fill in *. simpl. by rewrite IH.
Qed.

Lemma fill_values (h : Host) (form : Form) (entries : list (string * Value))
    (st : FormState) :
  values (fill h form entries st) = entered entries ∪ values st.
Proof.
  unfold fill, entered. revert st.
  induction entries as [|[k v] entries IH]; intros st; simpl.
  - by rewrite (left_id_L ∅ (∪)).
  - rewrite IH. simpl. rewrite reverse_cons, list_to_map_app. simpl.
    rewrite <- (assoc_L (∪)). f_equal.
    rewrite insert_union_singleton_l, insert_empty. done.
Qed.

(** When every field has been given a value, the values of the form are
    the values entered. *)
Lemma fill_all_values (h : Host) (form : Form) (entries : list (string * Value)) :
  (forall f, f ∈ allFields (sections form) -> fieldId f ∈ entries.*1) ->
  values (fill h form entries (initialState form)) = entered entries.
Proof.
  intros Hcover. rewrite fill_values. simpl.
  apply map_eq. intros k. rewrite lookup_union.
  destruct (entered entries !! k) as [v|] eqn:Hk.
  - by destruct (generateDefaultValues form !! k).
  - destruct (generateDefaultValues form !! k) as [d|] eqn:Hd; [|done].
    exfalso. rewrite generateDefaultValues_flat in Hd.
    apply lookup_foldl_put_Some in Hd as [Hd | (f & Hf & Hid & _)].
    + by rewrite lookup_empty in Hd.
    + apply Hcover in Hf. rewrite Hid in Hf.
      apply not_elem_of_list_to_map in Hk. apply Hk.
      rewrite fmap_reverse. by apply elem_of_reverse.
Qed.

Lemma pressNext_valid (h : Host) (form : Form) (n : nat) (st : FormState) :
  resolver h (buildSchema h (sections form)) (values st) = ∅ ->
  0 <= currentSectionIndex st ->
  currentSectionIndex st + Z.of_nat n <= totalSections form - 1 ->
  exists st1, pressNext h form n st = Some st1
              /\ currentSectionIndex st1 = currentSectionIndex st + Z.of_nat n
              /\ values st1 = values st.
Proof.
  revert st. induction n as [|n IH]; intros st Hvalid H0 Hn; simpl.
  - exists st. split; [done|]. split; [lia|done].
  - destruct (sectionAt_inRange form (currentSectionIndex st)) as [section Hs]; [lia|].
    destruct (handleNext_index h form st section Hs)
      as (st1 & eff & Hnext & Hvals & Hidx).
    rewrite Hnext. rewrite Hvalid in Hidx.
    assert (Hex : existsb (hasError (∅ : gmap string string))
                    (map fieldId (fields section)) = false).
    { apply existsb_hasError_false. intros (f & _ & [m Hm]).
      by rewrite lookup_empty in Hm. }
    rewrite Hex in Hidx. simpl in Hidx.
    destruct (Z.ltb_spec (currentSectionIndex st) (totalSections form - 1)); [|lia].
    destruct (IH st1) as (st2 & Hpress & Hidx2 & Hvals2).
    { by rewrite Hvals. } { lia. } { lia. }
    exists st2. split; [done|]. split; [lia|]. by rewrite Hvals2.
Qed.

(** C8: in a form with at least one section whose field ids are plain
    keys, starting from the initial state, giving every field a value
    (under plain keys) such that no field is invalid,
    pressing Next once per section but the last and then submitting
    collects exactly the values entered and leaves the engine in its
    initial state (first section, default values, no errors). *)
Theorem fill_next_submit_round_trip (h : Host) (form : Form)
    (entries : list (string * Value)) :
  sections form <> [] ->
  plainIds form ->
  (forall e, e ∈ entries -> plainKey e.1) ->
  (forall f, f ∈ allFields (sections form) -> fieldId f ∈ entries.*1) ->
  (forall f, f ∈ allFields (sections form) ->
     ~ invalidIn h form (entered entries) (fieldId f)) ->
  exists st,
    pressNext h form (length (sections form) - 1)
      (fill h form entries (initialState form)) = Some st
    /\ currentSectionIndex st = totalSections form - 1
    /\ values st = entered entries
    /\ onSubmit h form st
       = (initialState form, [Collected (entered entries); Toast "Success!"]).
Proof.
  intros Hne _ _ Hcover Hvalid.
  assert (Hvals : values (fill h form entries (initialState form)) = entered entries)
    by (by apply fill_all_values).
  assert (Hempty : resolver h (buildSchema h (sections form)) (entered entries) = ∅).
  { apply map_eq. intros k. rewrite lookup_empty.
    destruct (resolver h (buildSchema h (sections form)) (entered entries) !! k)
      as [m|] eqn:Hk; [|done].
    exfalso.
    destruct (resolver_error_has_field h form (entered entries) k)
      as (f & Hf & Hid); [by exists m|].
    apply (Hvalid f Hf). rewrite Hid. by exists m. }
  destruct (pressNext_valid h form (length (sections form) - 1)
              (fill h form entries (initialState form)))
    as (st & Hpress & Hidx & Hsame).
  { by rewrite Hvals. }
  { by rewrite fill_index. }
  { rewrite fill_index. unfold totalSections. simpl.
    destruct (sections form); [done|]. simpl. lia. }
  exists st. split; [done|].
  rewrite fill_index in Hidx. simpl in Hidx.
  split.
  { rewrite Hidx. unfold totalSections.
    destruct (sections form); [done|]. simpl. lia. }
  rewrite Hsame, Hvals. split; [done|].
  rewrite <- Hvals, <- Hsame. rewrite onSubmit_valid; [done|].
  by rewrite Hsame, Hvals.
Qed.

Lemma fill_next_submit_round_trip_witness :
  (sections sampleForm <> []
   /\ plainIds sampleForm
   /\ (forall e, e ∈ sampleEntries -> plainKey e.1)
   /\ (forall f, f ∈ allFields (sections sampleForm) -> fieldId f ∈ sampleEntries.*1)
   /\ (forall f, f ∈ allFields (sections sampleForm) ->
         ~ invalidIn sampleHost sampleForm (entered sampleEntries) (fieldId f)))
  /\ exists st,
       pressNext sampleHost sampleForm (length (sections sampleForm) - 1)
         (fill sampleHost sampleForm sampleEntries (initialState sampleForm)) = Some st
       /\ currentSectionIndex st = totalSections sampleForm - 1
       /\ values st = entered sampleEntries
       /\ onSubmit sampleHost sampleForm st
          = (initialState sampleForm,
             [Collected (entered sampleEntries); Toast "Success!"]).
Proof.
  assert (H1 : sections sampleForm <> []) by discriminate.
  assert (H2 : forall f, f ∈ allFields (sections sampleForm) ->
                 fieldId f ∈ sampleEntries.*1).
  { intros f Hf. vm_compute in Hf.
    repeat (apply elem_of_cons in Hf as [-> | Hf]);
      [ .. | by apply elem_of_nil in Hf ]; vm_compute.
    - left.
    - right. left.
    - do 2 right. left.
    - do 3 right. left. }
  assert (H3 : forall f, f ∈ allFields (sections sampleForm) ->
                 ~ invalidIn sampleHost sampleForm (entered sampleEntries) (fieldId f)).
  { intros f Hf [m Hm]. vm_compute in Hf.
    repeat (apply elem_of_cons in Hf as [-> | Hf]);
      [ .. | by apply elem_of_nil in Hf ]; vm_compute in Hm; discriminate. }
  assert (Hplain : plainIds sampleForm).
  { intros f Hf. vm_compute in Hf.
    repeat (apply elem_of_cons in Hf as [-> | Hf]);
      [ .. | by apply elem_of_nil in Hf ];
      (split; [discriminate | split; reflexivity]). }
  assert (Hkeys : forall e, e ∈ sampleEntries -> plainKey e.1).
  { intros e He. unfold sampleEntries in He.
    repeat (apply elem_of_cons in He as [-> | He]);
      [ .. | by apply elem_of_nil in He ];
      (split; [discriminate | split; reflexivity]). }
  split; [repeat (split; [assumption|]); assumption|].
  exact (fill_next_submit_round_trip sampleHost sampleForm sampleEntries
           H1 Hplain Hkeys H2 H3).
Defined.

(** ** Calendar arithmetic *)

Lemma validDate_spec (d : CalDate) :
  validDate d = true
  <-> 0 <= year d <= 9999 /\ 1 <= month d <= 12
      /\ 1 <= day d <= daysInMonth (year d) (month d).
Proof.
  unfold validDate. rewrite !andb_true_iff, !Z.leb_le. tauto.
Qed.

Lemma isLeap_spec (y : Z) :
  isLeap y = true <-> y mod 4 = 0 /\ (y mod 100 <> 0 \/ y mod 400 = 0).
Proof.
  unfold isLeap.
  rewrite andb_true_iff, orb_true_iff, negb_true_iff, !Z.eqb_eq, Z.eqb_neq.
  tauto.
Qed.

(** A year has 365 days, a leap year 366. *)
Lemma DayFromYear_succ (y : Z) :
  DayFromYear (y + 1) = DayFromYear y + 365 + (if isLeap y then 1 else 0).
Proof.
  unfold DayFromYear.
  destruct (isLeap y) eqn:Hleap.
  - apply isLeap_spec in Hleap. Z.to_euclidean_division_equations. lia.
  - assert (Hn : ~ (y mod 4 = 0 /\ (y mod 100 <> 0 \/ y mod 400 = 0))).
    { rewrite <- isLeap_spec. by rewrite Hleap. }
    Z.to_euclidean_division_equations. lia.
Qed.

Lemma DayFromYear_mono (y1 y2 : Z) :
  y1 <= y2 -> DayFromYear y1 <= DayFromYear y2.
Proof.
  intros Hle. unfold DayFromYear. Z.to_euclidean_division_equations. lia.
Qed.

Ltac month_cases m Hm :=
  assert (m = 1 \/ m = 2 \/ m = 3 \/ m = 4 \/ m = 5 \/ m = 6 \/ m = 7
          \/ m = 8 \/ m = 9 \/ m = 10 \/ m = 11 \/ m = 12) as Hm by lia;
  repeat (destruct Hm as [Hm | Hm]); subst m.

Lemma daysBeforeMonth_mono (y m1 m2 : Z) :
  1 <= m1 -> m1 < m2 -> m2 <= 12 ->
  daysBeforeMonth y m1 + daysInMonth y m1 <= daysBeforeMonth y m2.
Proof.
  intros H1 Hlt H2.
  month_cases m1 Hc1; month_cases m2 Hc2; try lia;
    unfold daysBeforeMonth, daysInMonth; simpl; destruct (isLeap y); lia.
Qed.

Lemma dayInYear_bounds (y m d : Z) :
  1 <= m <= 12 -> 1 <= d <= daysInMonth y m ->
  0 <= daysBeforeMonth y m + (d - 1) < 365 + (if isLeap y then 1 else 0).
Proof.
  intros Hm Hd. revert Hd.
  month_cases m Hc;
    unfold daysBeforeMonth, daysInMonth; simpl; destruct (isLeap y); lia.
Qed.

(** Earlier calendar dates have smaller day numbers. *)
Lemma MakeDay_lt (a b : CalDate) :
  validDate a = true -> validDate b = true ->
  year a < year b
  \/ (year a = year b /\ month a < month b)
  \/ (year a = year b /\ month a = month b /\ day a < day b) ->
  MakeDay a < MakeDay b.
Proof.
  rewrite !validDate_spec. intros (Hya & Hma & Hda) (Hyb & Hmb & Hdb) Hlt.
  unfold MakeDay.
  pose proof (dayInYear_bounds _ _ _ Hma Hda) as Ba.
  pose proof (dayInYear_bounds _ _ _ Hmb Hdb) as Bb.
  destruct Hlt as [Hy | [[Hy Hm] | (Hy & Hm & Hd)]].
  - pose proof (DayFromYear_succ (year a)) as Hs.
    pose proof (DayFromYear_mono (year a + 1) (year b)) as Hmono.
    lia.
  - rewrite Hy in *.
    pose proof (daysBeforeMonth_mono (year b) (month a) (month b)) as Hmono.
    lia.
  - rewrite Hy, Hm in *. lia.
Qed.

Lemma MakeDay_le_iff (a b : CalDate) :
  validDate a = true -> validDate b = true ->
  (MakeDay a <= MakeDay b <-> dateLe a b).
Proof.
  intros Ha Hb. unfold dateLe. split.
  - intros Hle.
    destruct (Z.lt_trichotomy (year a) (year b)) as [Hy | [Hy | Hy]]; [by left| |].
    + destruct (Z.lt_trichotomy (month a) (month b)) as [Hm | [Hm | Hm]].
      * right. left. done.
      * destruct (Z.le_gt_cases (day a) (day b)) as [Hd | Hd].
        -- right. right. done.
        -- pose proof (MakeDay_lt b a Hb Ha) as Hlt. lia.
      * pose proof (MakeDay_lt b a Hb Ha) as Hlt. lia.
    + pose proof (MakeDay_lt b a Hb Ha) as Hlt. lia.
  - intros [Hy | [[Hy Hm] | (Hy & Hm & Hd)]].
    + pose proof (MakeDay_lt a b Ha Hb) as Hlt. lia.
    + pose proof (MakeDay_lt a b Ha Hb) as Hlt. lia.
    + unfold MakeDay. rewrite Hy, Hm. lia.
Qed.

(** ** Reading back a formatted date *)

Lemma digitChar_digit (k : Z) :
  0 <= k <= 9 -> isDigit (digitChar k) = true /\ digitVal (digitChar k) = k.
Proof.
  intros Hk.
  assert (Hc : k = 0 \/ k = 1 \/ k = 2 \/ k = 3 \/ k = 4 \/ k = 5 \/ k = 6
               \/ k = 7 \/ k = 8 \/ k = 9) by lia.
  repeat (destruct Hc as [Hc | Hc]); subst k; by vm_compute.
Qed.

Lemma daysInMonth_le_31 (y m : Z) : daysInMonth y m <= 31.
Proof.
  unfold daysInMonth.
  destruct (m =? 2); [destruct (isLeap y); lia|].
  destruct ((m =? 4) || (m =? 6) || (m =? 9) || (m =? 11)); lia.
Qed.

Lemma isDigit_digitChar (k : Z) : 0 <= k <= 9 -> isDigit (digitChar k) = true.
Proof. intros Hk. by apply digitChar_digit. Qed.

Lemma digitVal_digitChar (k : Z) : 0 <= k <= 9 -> digitVal (digitChar k) = k.
Proof. intros Hk. by apply digitChar_digit. Qed.

Ltac digits := Z.to_euclidean_division_equations; lia.

Lemma dateRegex_format (d : CalDate) :
  validDate d = true -> dateRegex (format_yyyyMMdd d) = true.
Proof.
  rewrite validDate_spec. intros (Hy & Hm & Hd).
  pose proof (daysInMonth_le_31 (year d) (month d)) as H31.
  unfold dateRegex, format_yyyyMMdd.
  rewrite list_ascii_of_string_of_list_ascii.
  rewrite !isDigit_digitChar by digits. reflexivity.
Qed.

Lemma readDate_format (d : CalDate) :
  validDate d = true -> readDate (format_yyyyMMdd d) = Some d.
Proof.
  rewrite validDate_spec. intros (Hy & Hm & Hd).
  pose proof (daysInMonth_le_31 (year d) (month d)) as H31.
  unfold readDate, format_yyyyMMdd.
  rewrite list_ascii_of_string_of_list_ascii.
  rewrite !digitVal_digitChar by digits.
  destruct d as [y m dd]. simpl in *. f_equal. f_equal; digits.
Qed.

(** ** The calendar of the rule table and the calendar of the code *)

Lemma isLeap_leapYear (y : Z) : isLeap y = true <-> leapYear y.
Proof.
  rewrite isLeap_spec. unfold leapYear. split.
  - intros [H4 [H100 | H400]]; [by left | by right].
  - intros [[H4 H100] | H400].
    + split; [done | by left].
    + split; [|by right]. Z.to_euclidean_division_equations. lia.
Qed.

Lemma monthLength_daysInMonth (y m n : Z) :
  monthLength y m n <-> 1 <= m <= 12 /\ n = daysInMonth y m.
Proof.
  unfold monthLength. split.
  - intros [[Hm ->] | [[Hm ->] | [(-> & Hl & ->) | (-> & Hl & ->)]]].
    + split; [lia|]. repeat (destruct Hm as [Hm | Hm]); subst m; reflexivity.
    + split; [lia|]. repeat (destruct Hm as [Hm | Hm]); subst m; reflexivity.
    + split; [lia|]. apply isLeap_leapYear in Hl.
      unfold daysInMonth. simpl. by rewrite Hl.
    + split; [lia|]. unfold daysInMonth. simpl.
      destruct (isLeap y) eqn:Hleap; [|done].
      by apply isLeap_leapYear in Hleap.
  - intros [Hm ->]. month_cases m Hc; unfold daysInMonth; simpl;
      try (left; split; [tauto | reflexivity]);
      try (right; left; split; [tauto | reflexivity]).
    destruct (isLeap y) eqn:Hleap.
    + right. right. left. by apply isLeap_leapYear in Hleap.
    + right. right. right. split; [done|]. split; [|done].
      intros Hl. apply isLeap_leapYear in Hl. congruence.
Qed.

(** The dates the code takes as they are written are the calendar dates
    of the years 0 to 9999. *)
Lemma validDate_CalendarDate (d : CalDate) :
  validDate d = true <-> CalendarDate d /\ 0 <= year d <= 9999.
Proof.
  rewrite validDate_spec. unfold CalendarDate. split.
  - intros (Hy & Hm & Hd). split; [|done].
    exists (daysInMonth (year d) (month d)). split; [|done].
    by apply monthLength_daysInMonth.
  - intros [(n & Hn & Hd) Hy].
    apply monthLength_daysInMonth in Hn as [Hm ->]. done.
Qed.

Lemma isDigit_DigitOf (c : ascii) : isDigit c = true -> DigitOf c (digitVal c).
Proof.
  destruct c as [b0 b1 b2 b3 b4 b5 b6 b7].
  destruct b0, b1, b2, b3, b4, b5, b6, b7; intros H;
    try (vm_compute in H; discriminate H); vm_compute; constructor.
Qed.

Lemma DigitOf_spec (c : ascii) (n : Z) :
  DigitOf c n ->
  isDigit c = true /\ digitVal c = n /\ 0 <= n <= 9 /\ digitChar n = c.
Proof.
  intros H. destruct H;
    (split; [reflexivity | split; [reflexivity | split; [lia | reflexivity]]]).
Qed.

(** The pattern of the source matches the strings that name a date. *)
Lemma dateRegex_NamesDate (s : string) :
  dateRegex s = true -> exists d, readDate s = Some d /\ NamesDate s d.
Proof.
  unfold dateRegex, readDate.
  destruct s as [|y1 [|y2 [|y3 [|y4 [|h1 [|m1 [|m2 [|h2 [|d1 [|d2 [|x s]]]]]]]]]]];
    simpl; try discriminate.
  rewrite !andb_true_iff, !Ascii.eqb_eq.
  intros (((((((((H1 & H2) & H3) & H4) & ->) & H5) & H6) & ->) & H7) & H8).
  eexists. split; [reflexivity|].
  exists y1, y2, y3, y4, m1, m2, d1, d2.
  exists (digitVal y1), (digitVal y2), (digitVal y3), (digitVal y4).
  exists (digitVal m1), (digitVal m2), (digitVal d1), (digitVal d2).
  repeat split; by apply isDigit_DigitOf.
Qed.

Lemma NamesDate_read (s : string) (d : CalDate) :
  NamesDate s d ->
  dateRegex s = true /\ readDate s = Some d
  /\ 0 <= year d <= 9999 /\ 0 <= month d <= 99 /\ 0 <= day d <= 99
  /\ s = format_yyyyMMdd d.
Proof.
  intros (y1 & y2 & y3 & y4 & m1 & m2 & d1 & d2
          & a1 & a2 & a3 & a4 & b1 & b2 & c1 & c2
          & -> & H1 & H2 & H3 & H4 & H5 & H6 & H7 & H8 & Hy & Hm & Hd).
  apply DigitOf_spec in H1 as (I1 & V1 & R1 & C1).
  apply DigitOf_spec in H2 as (I2 & V2 & R2 & C2).
  apply DigitOf_spec in H3 as (I3 & V3 & R3 & C3).
  apply DigitOf_spec in H4 as (I4 & V4 & R4 & C4).
  apply DigitOf_spec in H5 as (I5 & V5 & R5 & C5).
  apply DigitOf_spec in H6 as (I6 & V6 & R6 & C6).
  apply DigitOf_spec in H7 as (I7 & V7 & R7 & C7).
  apply DigitOf_spec in H8 as (I8 & V8 & R8 & C8).
  split; [|split; [|split; [|split; [|split]]]]; try lia.
  - unfold dateRegex. simpl. rewrite I1, I2, I3, I4, I5, I6, I7, I8. reflexivity.
  - unfold readDate. simpl. rewrite V1, V2, V3, V4, V5, V6, V7, V8.
    destruct d as [y m dd]. simpl in *. by subst.
  - unfold format_yyyyMMdd. simpl.
    replace (year d / 1000) with a1 by digits.
    replace (year d / 100 mod 10) with a2 by digits.
    replace (year d / 10 mod 10) with a3 by digits.
    replace (year d mod 10) with a4 by digits.
    replace (month d / 10) with b1 by digits.
    replace (month d mod 10) with b2 by digits.
    replace (day d / 10) with c1 by digits.
    replace (day d mod 10) with c2 by digits.
    by rewrite C1, C2, C3, C4, C5, C6, C7, C8.
Qed.

Lemma MatchesYMD_dateRegex (s : string) : MatchesYMD s <-> dateRegex s = true.
Proof.
  split.
  - intros [d Hd]. by apply NamesDate_read in Hd as [Hre _].
  - intros Hre. apply dateRegex_NamesDate in Hre as (d & _ & Hd). by exists d.
Qed.

(** A string names one date only. *)
Lemma NamesDate_inj (s : string) (d1 d2 : CalDate) :
  NamesDate s d1 -> NamesDate s d2 -> d1 = d2.
Proof.
  intros H1 H2.
  apply NamesDate_read in H1 as (_ & H1 & _).
  apply NamesDate_read in H2 as (_ & H2 & _). congruence.
Qed.

(** The text [format] gives for a date of the code names that date. *)
Lemma NamesDate_format (d : CalDate) :
  CalendarDate d -> 0 <= year d <= 9999 -> NamesDate (format_yyyyMMdd d) d.
Proof.
  intros Hc Hy.
  assert (Hv : validDate d = true) by (by apply validDate_CalendarDate).
  destruct (dateRegex_NamesDate _ (dateRegex_format d Hv)) as (d' & Hread & Hn).
  rewrite (readDate_format d Hv) in Hread. by injection Hread as ->.
Qed.

Lemma dateLe_antisym (a b : CalDate) : dateLe a b -> dateLe b a -> a = b.
Proof.
  unfold dateLe. intros Hab Hba. destruct a as [y m d], b as [y' m' d'].
  simpl in *. assert (y = y' /\ m = m' /\ d = d') as (-> & -> & ->) by lia.
  reflexivity.
Qed.

(** ** The compiled rule of a date field *)

(** On a string that names a calendar date the refinement compares two
    instants: midnight UTC of that date moved by the offset in force at
    that instant, and local midnight of today. *)
Lemma notInFuture_calendar (h : Host) (s : string) (d : CalDate) :
  NamesDate s d -> CalendarDate d ->
  notInFuture h (VStr s)
  = (utcMidnight d + offsetAt h (utcMidnight d) * 60000 <=? startOfDay_now h).
Proof.
  intros Hn Hc. apply NamesDate_read in Hn as (Hre & Hread & Hy & _).
  assert (Hv : validDate d = true) by (by apply validDate_CalendarDate).
  unfold notInFuture, newDate. by rewrite Hre, Hread, Hv.
Qed.

(** In calendar terms: the date is before today, or it is today and the
    offset at midnight UTC of today is not above the one at local
    midnight of today. *)
Lemma notInFuture_order (h : Host) (s : string) (d : CalDate) :
  soundHost h -> NamesDate s d -> CalendarDate d ->
  (notInFuture h (VStr s) = true
   <-> dateLe d (nowLocal h) /\ (d = nowLocal h -> steadyToday h)).
Proof.
  intros (Hnow & Hyear & Hzone) Hn Hc.
  rewrite (notInFuture_calendar h s d Hn Hc), Z.leb_le.
  apply NamesDate_read in Hn as (_ & _ & Hy & _).
  assert (Hvd : validDate d = true) by (by apply validDate_CalendarDate).
  assert (Hvn : validDate (nowLocal h) = true) by (by apply validDate_CalendarDate).
  pose proof (MakeDay_le_iff d (nowLocal h) Hvd Hvn) as Hle.
  pose proof (MakeDay_le_iff (nowLocal h) d Hvn Hvd) as Hge.
  pose proof (Hzone (utcMidnight d)) as Hoff.
  unfold steadyToday, startOfDay_now, utcMidnight, msPerDay in *.
  split.
  - intros H. split.
    + apply Hle. lia.
    + intros ->. lia.
  - intros [Hd Hsteady].
    destruct (Z.eq_dec (MakeDay d) (MakeDay (nowLocal h))) as [Heq | Hne].
    + assert (Hsame : d = nowLocal h).
      { apply dateLe_antisym; [done|]. apply Hge. lia. }
      specialize (Hsteady Hsame). subst d. lia.
    + apply Hle in Hd. lia.
Qed.

(** Where [new Date] gives NaN the refinement fails: a month outside
    1..12, a day outside 1..31, or a day its month lacks in an engine
    that does not roll over. *)
Lemma notInFuture_off_calendar (h : Host) (s : string) (d : CalDate) :
  NamesDate s d ->
  ~ (1 <= month d <= 12 /\ 1 <= day d <= 31)
  \/ (~ CalendarDate d /\ overflowDate h d = None) ->
  notInFuture h (VStr s) = false.
Proof.
  intros Hn Hoff. apply NamesDate_read in Hn as (Hre & Hread & Hy & _).
  unfold notInFuture, newDate. rewrite Hre, Hread. simpl.
  destruct (validDate d) eqn:Hv.
  - apply validDate_CalendarDate in Hv as [Hc _].
    destruct Hoff as [Hout | [Hnc _]]; [|done].
    destruct Hc as (n & Hlen & Hday).
    apply monthLength_daysInMonth in Hlen as [Hm ->].
    pose proof (daysInMonth_le_31 (year d) (month d)). lia.
  - destruct ((1 <=? month d) && (month d <=? 12)
              && (1 <=? day d) && (day d <=? 31)) eqn:Hin; [|done].
    rewrite !andb_true_iff, !Z.leb_le in Hin.
    destruct Hoff as [Hout | [_ ->]]; [|done]. lia.
Qed.

(** A day, at most 31, that its month lacks: the refinement judges the
    instant the engine makes of the string. *)
Lemma notInFuture_overflow (h : Host) (s : string) (d : CalDate) (t : Z) :
  NamesDate s d -> ~ CalendarDate d ->
  1 <= month d <= 12 -> 1 <= day d <= 31 ->
  overflowDate h d = Some t ->
  notInFuture h (VStr s) = (t + offsetAt h t * 60000 <=? startOfDay_now h).
Proof.
  intros Hn Hnc Hm Hd Ht. apply NamesDate_read in Hn as (Hre & Hread & _).
  assert (Hv : validDate d = false).
  { destruct (validDate d) eqn:Hv; [|done].
    by apply validDate_CalendarDate in Hv as [Hc _]. }
  assert (Hin : (1 <=? month d) && (month d <=? 12)
                && (1 <=? day d) && (day d <=? 31) = true).
  { rewrite !andb_true_iff, !Z.leb_le. lia. }
  unfold notInFuture, newDate. by rewrite Hre, Hread, Hv, Hin, Ht.
Qed.

Lemma date_issues (h : Host) (f : FormField) (s : string) :
  type f = date ->
  issues (parse h (buildFieldSchema h f) (VStr s))
  = ((if dateRegex s then [] else [dateFormatMessage f])
     ++ (if notInFuture h (VStr s) then [] else [futureDateMessage f])
     ++ (if required f && String.eqb s "" then [requiredMessage f] else []))%list.
Proof.
  intros Hty. unfold buildFieldSchema, typeSchema. rewrite Hty.
  generalize (notInFuture h). intros p.
  destruct (required f); simpl.
  - unfold runChecks. simpl.
    destruct (dateRegex s) eqn:Hre; simpl;
      destruct (p (VStr s)); simpl;
      destruct (String.eqb s ""); simpl; reflexivity.
  - unfold runChecks. simpl.
    destruct (dateRegex s) eqn:Hre; simpl;
      destruct (p (VStr s)); simpl; reflexivity.
Qed.

(** The issues of a string that matches the pattern: the future-date
    message or nothing. *)
Lemma date_issues_matching (h : Host) (f : FormField) (s : string) (d : CalDate) :
  type f = date -> NamesDate s d ->
  issues (parse h (buildFieldSchema h f) (VStr s))
  = if notInFuture h (VStr s) then [] else [futureDateMessage f].
Proof.
  intros Hty Hn. rewrite (date_issues h f s Hty).
  apply NamesDate_read in Hn as (Hre & _ & _ & _ & _ & Hs).
  rewrite Hre.
  replace (String.eqb s "") with false by (rewrite Hs; reflexivity).
  rewrite andb_false_r. generalize (notInFuture h (VStr s)).
  intros []; reflexivity.
Qed.

(** The issues of a string that does not: both messages, the format
    message first. *)
Lemma date_issues_unmatched (h : Host) (f : FormField) (s : string) :
  type f = date -> ~ MatchesYMD s ->
  issues (parse h (buildFieldSchema h f) (VStr s))
  = dateFormatMessage f :: futureDateMessage f
    :: (if required f && String.eqb s "" then [requiredMessage f] else []).
Proof.
  intros Hty Hno. rewrite (date_issues h f s Hty).
  assert (Hre : dateRegex s = false).
  { destruct (dateRegex s) eqn:Hre; [|done]. by apply MatchesYMD_dateRegex in Hre. }
  unfold notInFuture. rewrite Hre. reflexivity.
Qed.

(** A date of the rule table that meets the rule is accepted, today on
    the condition that the offset of the zone is steady. *)
Lemma date_accepts_spec (h : Host) (f : FormField) (s : string) :
  type f = date -> soundHost h ->
  specDateAccepts (nowLocal h) s ->
  (s = format_yyyyMMdd (nowLocal h) -> steadyToday h) ->
  issues (parse h (buildFieldSchema h f) (VStr s)) = [].
Proof.
  intros Hty Hh (d & Hn & Hc & Hle) Hsteady.
  rewrite (date_issues_matching h f s d Hty Hn).
  assert (Hok : notInFuture h (VStr s) = true).
  { apply (notInFuture_order h s d Hh Hn Hc). split; [done|].
    intros ->. apply Hsteady. by apply NamesDate_read in Hn as (_ & _ & _ & _ & _ & Hs). }
  by rewrite Hok.
Qed.

Lemma date_rejects_boolean (h : Host) (f : FormField) (b : bool) :
  type f = date -> issues (parse h (buildFieldSchema h f) (VBool b)) <> [].
Proof.
  intros Hty. unfold buildFieldSchema, typeSchema. rewrite Hty.
  generalize (notInFuture h). intros p. by destruct (required f).
Qed.

Lemma date_absent (h : Host) (f : FormField) :
  type f = date ->
  issues (parse h (buildFieldSchema h f) VUndefined)
  = if required f then ["Required"] else [].
Proof.
  intros Hty. unfold buildFieldSchema, typeSchema. rewrite Hty.
  generalize (notInFuture h). intros p. by destruct (required f).
Qed.

Lemma soundHost_sampleHost : soundHost sampleHost.
Proof.
  split; [|split].
  - apply validDate_CalendarDate. reflexivity.
  - simpl. lia.
  - intros t. simpl. lia.
Qed.

Lemma soundHost_sydneyHost : soundHost sydneyHost.
Proof.
  split; [|split].
  - apply validDate_CalendarDate. reflexivity.
  - simpl. lia.
  - intros t. simpl. destruct (t <? 1712419200000); lia.
Qed.

Lemma steadyToday_sampleHost : steadyToday sampleHost.
Proof. unfold steadyToday. simpl. lia. Qed.




(** The date rule on the sample host, whose today is 2024-02-29 and
    whose engine rolls a day its month lacks over into the next month,
    as V8 does: the day itself and an earlier day pass, and so does
    "2023-02-29", read as 1 March 2023; the next day, "2024-02-30" (read
    as 1 March 2024), a thirteenth month, a day 00 and the empty string
    do not. *)
Example date_rule_examples :
  map (fun s => fieldError sampleHost (buildFieldSchema sampleHost dobField) (VStr s))
      ["2024-02-29"; "1999-12-31"; "2024-03-01"; "2023-02-29"; "2024-02-30";
       "2023-13-01"; "2023-01-00"; "2099-01-01"; "01-01-2099"; ""]
  = [None; None; Some "DOB cannot be a future date"; None;
     Some "DOB cannot be a future date"; Some "DOB cannot be a future date";
     Some "DOB cannot be a future date"; Some "DOB cannot be a future date";
     Some "Invalid date format (YYYY-MM-DD)";
     Some "Invalid date format (YYYY-MM-DD)"].
Proof. vm_compute. reflexivity. Qed.

(** The same day in an engine that makes no date of "2023-02-29"; an
    absent value on an optional and on a required date field; today's
    date in Sydney on the day daylight saving ends. *)
Example date_rule_hosts :
  issues (parse strictHost (buildFieldSchema strictHost dobField) (VStr "2023-02-29"))
  = ["DOB cannot be a future date"]
  /\ ~ CalendarDate {| year := 2023; month := 2; day := 29 |}
  /\ issues (parse sampleHost (buildFieldSchema sampleHost optionalDobField) VUndefined)
     = []
  /\ issues (parse sampleHost (buildFieldSchema sampleHost dobField) VUndefined)
     = ["Required"]
  /\ format_yyyyMMdd (nowLocal sydneyHost) = "2024-04-07"
  /\ issues (parse sydneyHost (buildFieldSchema sydneyHost dobField) (VStr "2024-04-07"))
     = ["DOB cannot be a future date"]
  /\ issues (parse sydneyHost (buildFieldSchema sydneyHost dobField) (VStr "2024-04-06"))
     = [].
Proof.
  split; [reflexivity|]. split.
  - intros Hc.
    assert (Hv : validDate {| year := 2023; month := 2; day := 29 |} = true).
    { apply validDate_CalendarDate. split; [done | simpl; lia]. }
    discriminate Hv.
  - repeat split; reflexivity.
Qed.

(** ** The shape of the compiled schema *)

Lemma withLengths_string (f : FormField) (cs : list StringCheck) :
  withLengths f (ZodString cs) = ZodString (cs ++ lengthChecks f).
Proof.
  unfold withLengths, lengthChecks.
  destruct (minLength f), (maxLength f); simpl;
    rewrite <- ?app_assoc, ?app_nil_r; reflexivity.
Qed.

Lemma typeSchema_string (h : Host) (f : FormField) :
  isStringType (type f) -> typeSchema h f = ZodString (typeChecks f).
Proof.
  intros [Hd Hc]. unfold typeSchema, typeChecks, z_string, z_regex, z_email.
  destruct (type f); try done; simpl; by rewrite ?withLengths_string.
Qed.

Lemma buildFieldSchema_string (h : Host) (f : FormField) :
  isStringType (type f) ->
  buildFieldSchema h f
  = if required f
    then ZodString (typeChecks f ++ [CheckMin 1 (requiredMessage f)])
    else ZodOptional (ZodString (typeChecks f)).
Proof.
  intros Hs. unfold buildFieldSchema. rewrite (typeSchema_string h f Hs).
  destruct Hs as [Hd Hc].
  destruct (required f); destruct (type f); try done.
Qed.

Lemma runChecks_app (h : Host) (s : string) (cs1 cs2 : list StringCheck) :
  runChecks h s (cs1 ++ cs2) = (runChecks h s cs1 ++ runChecks h s cs2)%list.
Proof. unfold runChecks. by rewrite map_app, concat_app. Qed.

(** The issues of a field of string type: those of its own checks, then
    the required check. *)
Lemma string_field_issues (h : Host) (f : FormField) (s : string) :
  isStringType (type f) ->
  issues (parse h (typeSchema h f) (VStr s)) = runChecks h s (typeChecks f)
  /\ issues (parse h (buildFieldSchema h f) (VStr s))
     = (runChecks h s (typeChecks f)
        ++ (if required f && (strlen s <? 1) then [requiredMessage f] else []))%list.
Proof.
  intros Hs. rewrite (typeSchema_string h f Hs), (buildFieldSchema_string h f Hs).
  split; [done|].
  destruct (required f); simpl.
  - rewrite runChecks_app. unfold runChecks at 2. simpl.
    by rewrite app_nil_r.
  - by rewrite app_nil_r.
Qed.

Lemma elem_of_runChecks (h : Host) (s : string) (cs : list StringCheck) (msg : string) :
  msg ∈ runChecks h s cs -> msg ∈ map checkMessage cs.
Proof.
  unfold runChecks. induction cs as [|c cs IH]; simpl; [done|].
  rewrite elem_of_app, elem_of_cons. intros [Hc | Hrest].
  - left. destruct c; simpl in *;
      match type of Hc with context [if ?b then _ else _] => destruct b end;
      first [by apply elem_of_nil in Hc | by apply list_elem_of_singleton in Hc].
  - right. by apply IH.
Qed.

(** Every issue carries a message written into the schema, or is a type
    mismatch. *)
Lemma issues_from_schema (h : Host) (t : ZodType) (v : Value) (msg : string) :
  msg ∈ issues (parse h t v) -> msg ∈ schemaMessages t \/ isTypeMismatch msg.
Proof.
  revert v. induction t as [|cs| |inner IH p m|inner IH|inner IH d]; intros v; simpl.
  - intros H. by apply elem_of_nil in H.
  - destruct v as [|s|b]; simpl.
    + intros H. apply list_elem_of_singleton in H. right. by exists "string", VUndefined.
    + intros H. left. by apply (elem_of_runChecks h s).
    + intros H. apply list_elem_of_singleton in H. right. by exists "string", (VBool b).
  - destruct v as [|s|b]; simpl.
    + intros H. apply list_elem_of_singleton in H. right. by exists "boolean", VUndefined.
    + intros H. apply list_elem_of_singleton in H. right. by exists "boolean", (VStr s).
    + intros H. by apply elem_of_nil in H.
  - assert (Hinner : msg ∈ issues (parse h inner v) ->
              msg ∈ (schemaMessages inner ++ [m])%list \/ isTypeMismatch msg).
    { intros Hx. apply IH in Hx as [Hx | Hx]; [left|by right].
      apply elem_of_app. by left. }
    destruct (status (parse h inner v)); try (by apply Hinner).
    + destruct (p (output (parse h inner v))); [by apply Hinner|]. simpl.
      rewrite elem_of_app. intros [Hx | Hx]; [by apply Hinner|].
      left. apply elem_of_app. by right.
    + destruct (p (output (parse h inner v))); [by apply Hinner|]. simpl.
      rewrite elem_of_app. intros [Hx | Hx]; [by apply Hinner|].
      left. apply elem_of_app. by right.
  - destruct v as [|s|b]; simpl; [intros H; by apply elem_of_nil in H| |]; apply IH.
  - destruct v as [|s|b]; apply IH.
Qed.

(** The messages written into the schema of a field. *)
Lemma schemaMessages_field (h : Host) (f : FormField) (msg : string) :
  msg ∈ schemaMessages (buildFieldSchema h f) ->
  In msg [requiredMessage f; emailMessage f; phoneMessage f;
          dateFormatMessage f; futureDateMessage f]
  \/ (exists n, minLength f = Some n /\ msg = minLengthMessage f n)
  \/ (exists n, maxLength f = Some n /\ msg = maxLengthMessage f n).
Proof.
  unfold buildFieldSchema, typeSchema, withLengths.
  destruct (type f); destruct (required f);
    destruct (minLength f) as [mn|]; destruct (maxLength f) as [mx|];
    simpl; intros H;
    repeat (apply elem_of_cons in H as [-> | H]);
    first [ by apply elem_of_nil in H
          | left; simpl; tauto
          | right; left; eexists; split; reflexivity
          | right; right; eexists; split; reflexivity ].
Qed.

(** ** Which message a failing rule reports *)

Lemma messageOr_override (f : FormField) (m fallback : string) :
  validation f = Some {| message := m |} -> m <> "" -> messageOr f fallback = m.
Proof.
  intros Hv Hm. unfold messageOr. rewrite Hv. simpl.
  destruct (String.eqb_spec m ""); [done|done].
Qed.

Lemma elem_of_runChecks_intro (h : Host) (s : string) (cs : list StringCheck)
    (c : StringCheck) (msg : string) :
  c ∈ cs -> runCheck h s c = [msg] -> msg ∈ runChecks h s cs.
Proof.
  intros Hc Hrun. unfold runChecks.
  apply list_elem_of_In, in_concat. exists [msg]. split.
  - rewrite <- Hrun. apply in_map. by apply list_elem_of_In.
  - by left.
Qed.

Lemma lengthChecks_in_typeChecks (f : FormField) (c : StringCheck) :
  type f = text \/ type f = textarea \/ type f = tel ->
  c ∈ lengthChecks f -> c ∈ typeChecks f.
Proof.
  unfold typeChecks. intros [Ht | [Ht | Ht]] Hc; rewrite Ht; [done|done|].
  by right.
Qed.

(** A length rule that fails reports its own built-in message. *)
Lemma length_rule_issue (h : Host) (f : FormField) (s : string) :
  type f = text \/ type f = textarea \/ type f = tel ->
  (forall n, minLength f = Some n -> strlen s < n ->
     minLengthMessage f n ∈ issues (parse h (buildFieldSchema h f) (VStr s)))
  /\ (forall n, maxLength f = Some n -> n < strlen s ->
        maxLengthMessage f n ∈ issues (parse h (buildFieldSchema h f) (VStr s))).
Proof.
  intros Hty.
  assert (Hs : isStringType (type f)).
  { split; destruct Hty as [Ht | [Ht | Ht]]; by rewrite Ht. }
  destruct (string_field_issues h f s Hs) as [_ Hiss]. rewrite Hiss.
  split; intros n Hn Hlen; apply elem_of_app; left.
  - apply (elem_of_runChecks_intro h s _ (CheckMin n (minLengthMessage f n))).
    + apply lengthChecks_in_typeChecks; [done|].
      unfold lengthChecks. rewrite Hn. by left.
    + simpl. destruct (Z.ltb_spec (strlen s) n); [done|lia].
  - apply (elem_of_runChecks_intro h s _ (CheckMax n (maxLengthMessage f n))).
    + apply lengthChecks_in_typeChecks; [done|].
      unfold lengthChecks. rewrite Hn. apply elem_of_app. right. by left.
    + simpl. destruct (Z.gtb_spec (strlen s) n); [done|lia].
Qed.




(** ** Required and optional fields on the empty string *)

Lemma lengthChecks_ok (h : Host) (f : FormField) (s : string) :
  lengthsOk f s -> runChecks h s (lengthChecks f) = [].
Proof.
  intros [Hmin Hmax]. unfold lengthChecks, runChecks.
  destruct (minLength f) as [mn|]; destruct (maxLength f) as [mx|]; simpl;
    try (specialize (Hmin mn eq_refl)); try (specialize (Hmax mx eq_refl));
    try (destruct (Z.ltb_spec (strlen s) mn); [lia|]);
    try (destruct (Z.gtb_spec (strlen s) mx); [lia|]); reflexivity.
Qed.

Lemma typeChecks_ok (h : Host) (f : FormField) (s : string) :
  isStringType (type f) -> meetsConstraints h f s ->
  runChecks h s (typeChecks f) = [].
Proof.
  intros [Hd Hc]. unfold meetsConstraints, typeChecks.
  destruct (type f); try done; intros Hok.
  - by apply lengthChecks_ok.
  - destruct Hok as [Hre Hlen].
    change (CheckRegex phoneRegex (phoneMessage f) :: lengthChecks f)
      with ([CheckRegex phoneRegex (phoneMessage f)] ++ lengthChecks f)%list.
    rewrite runChecks_app, (lengthChecks_ok h f s Hlen).
    unfold runChecks. simpl. by rewrite Hre.
  - unfold runChecks. simpl. by rewrite Hok.
  - by apply lengthChecks_ok.
Qed.

Lemma strlen_nonempty (s : string) : s <> "" -> (strlen s <? 1) = false.
Proof.
  intros Hs. destruct s as [|c s]; [done|].
  unfold strlen. simpl. apply Z.ltb_ge. lia.
Qed.

Lemma stringType_or_date (f : FormField) :
  type f <> checkbox -> type f = date \/ isStringType (type f).
Proof.
  intros Hc. unfold isStringType. destruct (type f); try (by left); by right.
Qed.




(** What the empty string gives on required fields of the sample form. *)
Example required_examples :
  map (fun f => fieldError sampleHost (buildFieldSchema sampleHost f) (VStr ""))
      [dobField; nameField; cityField]
  = [Some "Invalid date format (YYYY-MM-DD)";
     Some "Name must be at least 3 characters";
     Some "City is required"].
Proof. vm_compute. reflexivity. Qed.

(** C5 fails on the source: making a schema optional lets it accept an
    absent value only, and an unanswered field holds the empty string.
    An optional date field, an optional text, textarea or tel field with
    a positive minimum length, and an optional e-mail field (the pattern
    rejecting the empty string) all report an error for the default
    value they start with. *)
Theorem optional_field_rejects_empty (h : Host) (f : FormField) :
  required f = false ->
  type f = date
  \/ (type f = email /\ isEmail h "" = false)
  \/ ((type f = text \/ type f = textarea \/ type f = tel)
      /\ exists n, minLength f = Some n /\ 0 < n) ->
  defaultValue f = VStr ""
  /\ is_Some (fieldError h (buildFieldSchema h f) (VStr ""))
  /\ fieldError h (buildFieldSchema h f) VUndefined = None.
Proof.
  intros Hreq Hcase.
  assert (Hnc : type f <> checkbox).
  { destruct Hcase as [Ht | [[Ht _] | [[Ht | [Ht | Ht]] _]]]; by rewrite Ht. }
  split; [unfold defaultValue; by destruct (type f)|].
  split.
  - destruct Hcase as [Hd | [[He Hmail] | [Hty (n & Hn & Hpos)]]].
    + unfold fieldError. rewrite (date_issues h f "" Hd). simpl. by eexists.
    + assert (Hs : isStringType (type f)) by (by rewrite He).
      destruct (string_field_issues h f "" Hs) as [_ Hiss].
      unfold fieldError. rewrite Hiss. unfold typeChecks. rewrite He.
      unfold runChecks. simpl. rewrite Hmail. simpl. by eexists.
    + destruct (length_rule_issue h f "" Hty) as [Hmin _].
      specialize (Hmin n Hn Hpos). unfold fieldError.
      destruct (issues (parse h (buildFieldSchema h f) (VStr ""))); simpl.
      * by apply elem_of_nil in Hmin.
      * by eexists.
  - destruct (stringType_or_date f Hnc) as [Hd | Hs].
    + unfold fieldError, buildFieldSchema, typeSchema. rewrite Hd, Hreq. reflexivity.
    + unfold fieldError. rewrite (buildFieldSchema_string h f Hs), Hreq. reflexivity.
Qed.

Lemma optional_field_rejects_empty_witness :
  (required optionalDobField = false /\ type optionalDobField = date)
  /\ defaultValue optionalDobField = VStr ""
  /\ is_Some (fieldError sampleHost (buildFieldSchema sampleHost optionalDobField)
                (VStr "")).
Proof.
  assert (H1 : required optionalDobField = false) by reflexivity.
  assert (H2 : type optionalDobField = date) by reflexivity.
  split; [by split|].
  destruct (optional_field_rejects_empty sampleHost optionalDobField H1 (or_introl H2))
    as (Ha & Hb & _).
  split; [exact Ha | exact Hb].
Defined.

(** An optional date field left untouched: the error it reports, and
    Next staying on its section. *)
Example optional_examples :
  fieldError sampleHost (buildFieldSchema sampleHost optionalDobField) (VStr "")
  = Some "Invalid date format (YYYY-MM-DD)"
  /\ generateDefaultValues optionalForm !! "dob" = Some (VStr "")
  /\ nextIndex sampleHost optionalForm (initialState optionalForm) = Some 0.
Proof. vm_compute. repeat split. Qed.

(** * Further properties of the schema compiler *)

(** ** Checkbox fields *)

(** X1: a required checkbox accepts the value [true] and nothing else,
    and reports the required message for [false]; an optional checkbox
    accepts both booleans and an absent value, which it reads as
    [false], and rejects strings. *)
Theorem checkbox_rule (h : Host) (f : FormField) (v : Value) :
  type f = checkbox ->
  if required f
  then (issues (parse h (buildFieldSchema h f) v) = [] <-> v = VBool true)
       /\ issues (parse h (buildFieldSchema h f) (VBool false)) = [requiredMessage f]
  else (issues (parse h (buildFieldSchema h f) v) = []
        <-> v = VUndefined \/ exists b, v = VBool b)
       /\ output (parse h (buildFieldSchema h f) VUndefined) = VBool false.
Proof.
  intros Hty. unfold buildFieldSchema, typeSchema. rewrite Hty.
  destruct (required f); simpl.
  - split; [|reflexivity].
    destruct v as [|s|[|]]; simpl; split; intros H; try discriminate; done.
  - split; [|reflexivity].
    destruct v as [|s|b]; simpl; split; intros H; try discriminate.
    + by left.
    + done.
    + destruct H as [H | [b H]]; discriminate.
    + right. by exists b.
    + done.
Qed.

Lemma checkbox_rule_witness :
  type agreeField = checkbox
  /\ (issues (parse sampleHost (buildFieldSchema sampleHost agreeField) (VBool true)) = []
      <-> VBool true = VBool true)
  /\ issues (parse sampleHost (buildFieldSchema sampleHost agreeField) (VBool false))
     = [requiredMessage agreeField].
Proof.
  assert (H : type agreeField = checkbox) by reflexivity.
  split; [exact H|].
  exact (checkbox_rule sampleHost agreeField (VBool true) H).
Defined.

(** ** Fields whose schema is a string schema *)

Lemma lengthChecks_ok_iff (h : Host) (f : FormField) (s : string) :
  runChecks h s (lengthChecks f) = [] <-> lengthsOk f s.
Proof.
  split; [|apply lengthChecks_ok].
  unfold lengthChecks, runChecks, lengthsOk.
  destruct (minLength f) as [mn|]; destruct (maxLength f) as [mx|]; simpl;
    try (destruct (Z.ltb_spec (strlen s) mn); [discriminate|]);
    try (destruct (Z.gtb_spec (strlen s) mx); [discriminate|]);
    intros _; split; intros n Hn; try discriminate;
    injection Hn as <-; lia.
Qed.

Lemma typeChecks_ok_iff (h : Host) (f : FormField) (s : string) :
  isStringType (type f) ->
  (runChecks h s (typeChecks f) = [] <-> meetsConstraints h f s).
Proof.
  intros Hs. split; [|by apply typeChecks_ok].
  destruct Hs as [Hd Hc]. unfold meetsConstraints, typeChecks.
  destruct (type f); try done.
  - by apply lengthChecks_ok_iff.
  - change (CheckRegex phoneRegex (phoneMessage f) :: lengthChecks f)
      with ([CheckRegex phoneRegex (phoneMessage f)] ++ lengthChecks f)%list.
    rewrite runChecks_app. intros Hnil. apply app_nil in Hnil as [Hre Hlen].
    split; [|by apply (lengthChecks_ok_iff h)].
    unfold runChecks in Hre. simpl in Hre. by destruct (phoneRegex s).
  - unfold runChecks. simpl. by destruct (isEmail h s).
  - by apply lengthChecks_ok_iff.
Qed.

(** When the schema of a field of string type accepts a string. *)
Lemma string_schema_accepts (h : Host) (f : FormField) (s : string) :
  isStringType (type f) ->
  (issues (parse h (buildFieldSchema h f) (VStr s)) = []
   <-> meetsConstraints h f s /\ (required f = true -> s <> "")).
Proof.
  intros Hs. destruct (string_field_issues h f s Hs) as [_ Hiss].
  rewrite Hiss, app_nil, (typeChecks_ok_iff h f s Hs).
  split; intros [Hok Hreq]; (split; [done|]).
  - intros Hr ->. rewrite Hr in Hreq. simpl in Hreq. discriminate.
  - destruct (required f); [|done]. simpl.
    by rewrite (strlen_nonempty s (Hreq eq_refl)).
Qed.

(** X2: a text, textarea, tel, email, dropdown or radio field accepts a
    string exactly when the string meets the format and length rules of
    its type and, if the field is required, is not empty. *)
Theorem string_field_accepts_iff (h : Host) (f : FormField) (s : string) :
  isStringType (type f) ->
  (issues (parse h (buildFieldSchema h f) (VStr s)) = []
   <-> meetsConstraints h f s /\ (required f = true -> s <> "")).
Proof.
  intros Hs. split.
  - intros Hnil. by apply (string_schema_accepts h f s Hs).
  - intros Hok. by apply (string_schema_accepts h f s Hs).
Qed.

Lemma string_field_accepts_iff_witness :
  isStringType (type phoneField)
  /\ (issues (parse sampleHost (buildFieldSchema sampleHost phoneField)
                (VStr "+91 98765 43")) = []
      <-> meetsConstraints sampleHost phoneField "+91 98765 43"
          /\ (required phoneField = true -> "+91 98765 43" <> ""))
  /\ issues (parse sampleHost (buildFieldSchema sampleHost phoneField)
               (VStr "+91 98765 43")) = [].
Proof.
  assert (H : isStringType (type phoneField)) by (split; discriminate).
  split; [exact H|]. split.
  - exact (string_field_accepts_iff sampleHost phoneField "+91 98765 43" H).
  - reflexivity.
Defined.

(** X3: a dropdown or radio field never looks at its options: it
    accepts every non-empty string, and the empty string as well unless
    the field is required. *)
Theorem choice_field_ignores_options (h : Host) (f : FormField) (s : string) :
  type f = dropdown \/ type f = radio ->
  (issues (parse h (buildFieldSchema h f) (VStr s)) = []
   <-> (required f = true -> s <> ""))
  /\ forall o, buildFieldSchema h (setOptions o f) = buildFieldSchema h f.
Proof.
  intros Hty.
  assert (Hs : isStringType (type f)).
  { split; destruct Hty as [Ht | Ht]; by rewrite Ht. }
  split; [|done].
  rewrite (string_schema_accepts h f s Hs). unfold meetsConstraints.
  destruct Hty as [Ht | Ht]; rewrite Ht; tauto.
Qed.

Lemma choice_field_ignores_options_witness :
  (type cityField = dropdown \/ type cityField = radio)
  /\ options cityField = None
  /\ issues (parse sampleHost (buildFieldSchema sampleHost cityField)
               (VStr "Atlantis")) = [].
Proof.
  assert (H : type cityField = dropdown \/ type cityField = radio) by (by left).
  split; [exact H|]. split; [reflexivity|].
  apply (proj1 (choice_field_ignores_options sampleHost cityField "Atlantis" H)).
  discriminate.
Defined.

(** X4: length bounds declared on an email, date, dropdown, radio or
    checkbox field have no effect: the compiled schema is the one the
    field has without them. *)
Theorem bounds_ignored_outside_text (h : Host) (f : FormField)
    (mn mx : option Z) :
  type f <> text -> type f <> textarea -> type f <> tel ->
  buildFieldSchema h (setBounds mn mx f) = buildFieldSchema h f.
Proof.
  intros H1 H2 H3. unfold buildFieldSchema, typeSchema, setBounds,
    requiredMessage, emailMessage, dateFormatMessage, futureDateMessage,
    messageOr. simpl.
  destruct (type f); done.
Qed.

Lemma bounds_ignored_outside_text_witness :
  (type mailField <> text /\ type mailField <> textarea /\ type mailField <> tel)
  /\ minLength mailField = Some 3
  /\ buildFieldSchema sampleHost (setBounds None None mailField)
     = buildFieldSchema sampleHost mailField
  /\ issues (parse sampleHost (buildFieldSchema sampleHost mailField) (VStr "@")) = [].
Proof.
  assert (H1 : type mailField <> text) by discriminate.
  assert (H2 : type mailField <> textarea) by discriminate.
  assert (H3 : type mailField <> tel) by discriminate.
  split; [by repeat split|]. split; [reflexivity|]. split.
  - exact (bounds_ignored_outside_text sampleHost mailField None None H1 H2 H3).
  - reflexivity.
Defined.

(** ** The order of the messages *)

Lemma head_app_cons {A : Type} (l1 l2 : list A) :
  head (l1 ++ l2) = match head l1 with Some x => Some x | None => head l2 end.
Proof. by destruct l1. Qed.

Lemma lengthChecks_first (h : Host) (f : FormField) (s : string) (rest : list string) :
  head (runChecks h s (lengthChecks f) ++ rest)
  = if tooShort f s then Some (minLengthText f)
    else if tooLong f s then Some (maxLengthText f)
    else head rest.
Proof.
  unfold lengthChecks, runChecks, tooShort, tooLong, minLengthText, maxLengthText.
  destruct (minLength f) as [mn|]; destruct (maxLength f) as [mx|]; simpl;
    try destruct (strlen s <? mn); try destruct (strlen s >? mx); reflexivity.
Qed.

(** X5: for a text, textarea or tel field the message reported for a
    string is that of the first failing rule in this order: phone format
    (tel only), minimum length, maximum length, required. *)
Theorem reported_message_order (h : Host) (f : FormField) (s : string) :
  type f = text \/ type f = textarea \/ type f = tel ->
  fieldError h (buildFieldSchema h f) (VStr s)
  = firstOf [(FieldType_eqb (type f) tel && negb (phoneRegex s), phoneMessage f);
             (tooShort f s, minLengthText f);
             (tooLong f s, maxLengthText f);
             (required f && (strlen s <? 1), requiredMessage f)].
Proof.
  intros Hty.
  assert (Hs : isStringType (type f)).
  { split; destruct Hty as [Ht | [Ht | Ht]]; by rewrite Ht. }
  destruct (string_field_issues h f s Hs) as [_ Hiss].
  unfold fieldError. rewrite Hiss. unfold typeChecks.
  destruct Hty as [Ht | [Ht | Ht]]; rewrite Ht; simpl.
  - rewrite lengthChecks_first.
    destruct (tooShort f s); [done|]. destruct (tooLong f s); [done|].
    by destruct (required f && (strlen s <? 1)).
  - rewrite lengthChecks_first.
    destruct (tooShort f s); [done|]. destruct (tooLong f s); [done|].
    by destruct (required f && (strlen s <? 1)).
  - change (CheckRegex phoneRegex (phoneMessage f) :: lengthChecks f)
      with ([CheckRegex phoneRegex (phoneMessage f)] ++ lengthChecks f)%list.
    rewrite runChecks_app. unfold runChecks at 1. simpl.
    destruct (phoneRegex s); simpl; [|done].
    rewrite lengthChecks_first.
    destruct (tooShort f s); [done|]. destruct (tooLong f s); [done|].
    by destruct (required f && (strlen s <? 1)).
Qed.

Lemma reported_message_order_witness :
  (type phoneField = text \/ type phoneField = textarea \/ type phoneField = tel)
  /\ fieldError sampleHost (buildFieldSchema sampleHost phoneField) (VStr "12a")
     = Some "Invalid phone number format".
Proof.
  assert (H : type phoneField = text \/ type phoneField = textarea
              \/ type phoneField = tel) by (right; by right).
  split; [exact H|].
  rewrite (reported_message_order sampleHost phoneField "12a" H).
  reflexivity.
Defined.

(** The phone field of the samples (required, 10 to 12 characters) on
    five strings. *)
Example reported_message_examples :
  map (fun s => fieldError sampleHost (buildFieldSchema sampleHost phoneField) (VStr s))
      ["12a"; "123"; "1234567890123"; ""; "1234567890"]
  = [Some "Invalid phone number format";
     Some "Phone must be at least 10 characters";
     Some "Phone cannot exceed 12 characters";
     Some "Phone must be at least 10 characters";
     None].
Proof. vm_compute. reflexivity. Qed.

(** ** The keys of the schema *)


(** * Further properties of the handlers *)

(** ** Next *)

(** The two cases of [handleNext] on a section of the form. *)
Lemma handleNext_cases (h : Host) (form : Form) (st : FormState)
    (section : FormSection) :
  sectionAt form (currentSectionIndex st) = Some section ->
  exists st1 eff,
    handleNext h form st = Some (st1, eff)
    /\ values st1 = values st
    /\ (sectionInvalid h form (values st) section ->
        currentSectionIndex st1 = currentSectionIndex st
        /\ eff = [Toast "Validation Error"])
    /\ (~ sectionInvalid h form (values st) section ->
        eff = []
        /\ currentSectionIndex st1
           = if currentSectionIndex st <? totalSections form - 1
             then currentSectionIndex st + 1 else currentSectionIndex st).
Proof.
  intros Hs. unfold handleNext. rewrite Hs. unfold trigger, sectionInvalid, invalidIn.
  destruct (existsb _ _) eqn:Hex; simpl.
  - eexists _, _. split; [reflexivity|]. split; [done|]. split; [done|].
    intros Hno. exfalso. apply Hno. by apply existsb_hasError.
  - apply existsb_hasError_false in Hex.
    destruct (currentSectionIndex st <? totalSections form - 1); simpl;
      eexists _, _; (split; [reflexivity|]); (split; [done|]);
      (split; [intros Hinv; by apply Hex in Hinv|done]).
Qed.

(** X7: on a section the form has, [handleNext] never fails and never
    touches the values.  With an invalid field in the section it keeps
    the index and asks for the "Validation Error" toast; otherwise it
    asks for nothing and moves to the next section, unless the section is
    the last one. *)
Theorem next_advances_iff (h : Host) (form : Form) (st : FormState)
    (section : FormSection) :
  sectionAt form (currentSectionIndex st) = Some section ->
  exists st1 eff,
    handleNext h form st = Some (st1, eff)
    /\ values st1 = values st
    /\ (sectionInvalid h form (values st) section ->
        currentSectionIndex st1 = currentSectionIndex st
        /\ eff = [Toast "Validation Error"])
    /\ (~ sectionInvalid h form (values st) section ->
        eff = []
        /\ currentSectionIndex st1
           = if currentSectionIndex st <? totalSections form - 1
             then currentSectionIndex st + 1 else currentSectionIndex st).
Proof.
  intros Hs.
  destruct (handleNext_cases h form st section Hs)
    as (st1 & eff & Hnext & Hvals & Hbad & Hgood).
  exists st1, eff. split; [exact Hnext|]. split; [exact Hvals|].
  split; [exact Hbad|exact Hgood].
Qed.

Lemma next_advances_iff_witness :
  sectionAt sampleForm (currentSectionIndex filledState)
    = Some (mkSection 1 [nameField])
  /\ exists st1 eff,
       handleNext sampleHost sampleForm filledState = Some (st1, eff)
       /\ values st1 = values filledState
       /\ (sectionInvalid sampleHost sampleForm (values filledState)
             (mkSection 1 [nameField]) ->
           currentSectionIndex st1 = currentSectionIndex filledState
           /\ eff = [Toast "Validation Error"])
       /\ (~ sectionInvalid sampleHost sampleForm (values filledState)
               (mkSection 1 [nameField]) ->
           eff = []
           /\ currentSectionIndex st1
              = if currentSectionIndex filledState <? totalSections sampleForm - 1
                then currentSectionIndex filledState + 1
                else currentSectionIndex filledState).
Proof.
  assert (Hs : sectionAt sampleForm (currentSectionIndex filledState)
               = Some (mkSection 1 [nameField])) by reflexivity.
  split; [exact Hs|].
  exact (next_advances_iff sampleHost sampleForm filledState _ Hs).
Defined.

Lemma trigger_errors_lookup (found errs : gmap string string)
    (names : list string) (k : string) :
  foldl (fun e name =>
           match found !! name with
           | Some m => <[name := m]> e
           | None => delete name e
           end) errs names !! k
  = if decide (k ∈ names) then found !! k else errs !! k.
Proof.
  revert errs. induction names as [|n names IH]; intros errs; cbn [foldl].
  - rewrite decide_False; [done|apply not_elem_of_nil].
  - rewrite IH. destruct (decide (k ∈ names)) as [Hin|Hnin].
    + rewrite decide_True; [done|by right].
    + destruct (decide (k = n)) as [->|Hne].
      * rewrite decide_True by (by left).
        destruct (found !! n) as [m|] eqn:Hf.
        -- by rewrite lookup_insert_eq.
        -- by rewrite lookup_delete_eq.
      * rewrite decide_False.
        2:{ intros Hk. apply elem_of_cons in Hk as [?|?]; done. }
        destruct (found !! n) as [m|].
        -- by rewrite lookup_insert_ne.
        -- by rewrite lookup_delete_ne.
Qed.

(** X8: after [handleNext] the error of every field of the current
    section is the one the resolver finds for the current values, and the
    errors stored for the fields of the other sections are left as they
    were. *)
Theorem next_refreshes_section_errors (h : Host) (form : Form)
    (st st1 : FormState) (eff : list Effect) (section : FormSection) :
  sectionAt form (currentSectionIndex st) = Some section ->
  handleNext h form st = Some (st1, eff) ->
  (forall f, f ∈ fields section ->
     errors st1 !! fieldId f
     = resolver h (buildSchema h (sections form)) (values st) !! fieldId f)
  /\ (forall name, name ∉ map fieldId (fields section) ->
        errors st1 !! name = errors st !! name).
Proof.
  intros Hs Hnext. unfold handleNext in Hnext. rewrite Hs in Hnext.
  unfold trigger in Hnext.
  assert (Herr : errors st1
                 = foldl (fun e name =>
                            match resolver h (buildSchema h (sections form)) (values st) !! name with
                            | Some m => <[name := m]> e
                            | None => delete name e
                            end) (errors st) (map fieldId (fields section))).
  { destruct (negb (existsb _ _)); simpl in Hnext;
      [destruct (currentSectionIndex st <? totalSections form - 1); simpl in Hnext|];
      by injection Hnext as <- _. }
  rewrite Herr. split.
  - intros f Hf. rewrite trigger_errors_lookup, decide_True; [done|].
    apply list_elem_of_In, in_map. by apply list_elem_of_In.
  - intros name Hname. by rewrite trigger_errors_lookup, decide_False.
Qed.

Lemma next_refreshes_section_errors_witness :
  (sectionAt sampleForm (currentSectionIndex onlyNameState)
     = Some (mkSection 3 [agreeField])
   /\ handleNext sampleHost sampleForm onlyNameState
      = Some ({| currentSectionIndex := 2; values := values onlyNameState;
                 errors := {["agree" := "Agree is required"]} |},
              [Toast "Validation Error"]))
  /\ errors (fst (default (onlyNameState, [])
                    (handleNext sampleHost sampleForm onlyNameState))) !! "dob"
     = errors onlyNameState !! "dob".
Proof.
  assert (Hs : sectionAt sampleForm (currentSectionIndex onlyNameState)
               = Some (mkSection 3 [agreeField])) by reflexivity.
  assert (Hn : handleNext sampleHost sampleForm onlyNameState
               = Some ({| currentSectionIndex := 2; values := values onlyNameState;
                          errors := {["agree" := "Agree is required"]} |},
                       [Toast "Validation Error"])) by (by vm_compute).
  split; [by split|].
  destruct (next_refreshes_section_errors sampleHost sampleForm onlyNameState
              _ _ _ Hs Hn) as [_ Hother].
  rewrite Hn. simpl. apply (Hother "dob"). simpl.
  intros Hin. apply list_elem_of_singleton in Hin. discriminate.
Defined.

(** X9: Previous undoes Next.  When Next moves on from a valid section,
    pressing Previous in the state reached leads back to the section left,
    with the values untouched and, going back, nothing validated: the
    errors are those Next stored. *)
Theorem next_then_previous (h : Host) (form : Form) (st : FormState)
    (section : FormSection) :
  sectionAt form (currentSectionIndex st) = Some section ->
  ~ sectionInvalid h form (values st) section ->
  currentSectionIndex st < totalSections form - 1 ->
  exists st1,
    handleNext h form st = Some (st1, [])
    /\ currentSectionIndex st1 = currentSectionIndex st + 1
    /\ handlePrev st1
       = {| currentSectionIndex := currentSectionIndex st;
            values := values st; errors := errors st1 |}.
Proof.
  intros Hs Hvalid Hlast.
  destruct (handleNext_cases h form st section Hs)
    as (st1 & eff & Hnext & Hvals & _ & Hok).
  destruct (Hok Hvalid) as [-> Hidx].
  destruct (Z.ltb_spec (currentSectionIndex st) (totalSections form - 1)); [|lia].
  exists st1. split; [done|]. split; [done|].
  apply sectionAt_Some in Hs. unfold handlePrev. rewrite Hidx.
  destruct (Z.gtb_spec (currentSectionIndex st + 1) 0); [|lia].
  unfold setCurrentSectionIndex. f_equal; [lia|done].
Qed.

Lemma next_then_previous_witness :
  (sectionAt sampleForm (currentSectionIndex filledState)
     = Some (mkSection 1 [nameField])
   /\ ~ sectionInvalid sampleHost sampleForm (values filledState)
          (mkSection 1 [nameField])
   /\ currentSectionIndex filledState < totalSections sampleForm - 1)
  /\ exists st1,
       handleNext sampleHost sampleForm filledState = Some (st1, [])
       /\ currentSectionIndex st1 = currentSectionIndex filledState + 1
       /\ handlePrev st1
          = {| currentSectionIndex := currentSectionIndex filledState;
               values := values filledState; errors := errors st1 |}.
Proof.
  assert (H1 : sectionAt sampleForm (currentSectionIndex filledState)
               = Some (mkSection 1 [nameField])) by reflexivity.
  assert (H2 : ~ sectionInvalid sampleHost sampleForm (values filledState)
                   (mkSection 1 [nameField])).
  { intros (f & Hf & [m Hm]). apply list_elem_of_singleton in Hf. subst f.
    vm_compute in Hm. discriminate. }
  assert (H3 : currentSectionIndex filledState < totalSections sampleForm - 1)
    by (vm_compute; reflexivity).
  split; [by repeat split|].
  exact (next_then_previous sampleHost sampleForm filledState _ H1 H2 H3).
Defined.

Lemma resolver_empty_iff (h : Host) (form : Form) (vals : gmap string Value) :
  resolver h (buildSchema h (sections form)) vals = ∅
  <-> forall f, f ∈ allFields (sections form) -> ~ invalidIn h form vals (fieldId f).
Proof.
  split.
  - intros He f _ [m Hm]. by rewrite He, lookup_empty in Hm.
  - intros Hvalid. apply map_eq. intros k. rewrite lookup_empty.
    destruct (resolver h (buildSchema h (sections form)) vals !! k) as [m|] eqn:Hk;
      [|done].
    exfalso. destruct (resolver_error_has_field h form vals k) as (f & Hf & Hid);
      [by exists m|].
    apply (Hvalid f Hf). rewrite Hid. by exists m.
Qed.

(** ** Submit *)

(** X10: whatever section is shown, [onSubmit] collects data exactly
    when no field of the whole form is invalid; it then collects the
    values as they are and returns to the initial state.  Otherwise the
    only effect is the "Submission Failed" toast. *)
Theorem submit_collects_iff_valid (h : Host) (form : Form) (st : FormState) :
  ((exists data, Collected data ∈ snd (onSubmit h form st))
   <-> forall f, f ∈ allFields (sections form) ->
         ~ invalidIn h form (values st) (fieldId f))
  /\ ((forall f, f ∈ allFields (sections form) ->
         ~ invalidIn h form (values st) (fieldId f)) ->
      onSubmit h form st
      = (initialState form, [Collected (values st); Toast "Success!"]))
  /\ ((exists f, f ∈ allFields (sections form)
                 /\ invalidIn h form (values st) (fieldId f)) ->
      snd (onSubmit h form st) = [Toast "Submission Failed"]).
Proof.
  rewrite <- !resolver_empty_iff.
  destruct (decide (resolver h (buildSchema h (sections form)) (values st) = ∅))
    as [He|Hne].
  - rewrite (onSubmit_valid h form st He). simpl.
    split; [|split; [done|]].
    + split; [done|]. intros _. exists (values st). by left.
    + intros (f & Hf & Hinv).
      exfalso. apply (proj1 (resolver_empty_iff h form (values st)) He f Hf Hinv).
  - rewrite (onSubmit_invalid h form st Hne). simpl.
    split; [|split; [done|done]].
    split; [|done].
    intros [data Hin]. apply list_elem_of_singleton in Hin. discriminate.
Qed.

(** X11: a failed submission is idempotent: submitting again, with the
    values unchanged, yields the same state and the same toast. *)
Theorem failed_submit_idempotent (h : Host) (form : Form) (st : FormState) :
  (exists f, f ∈ allFields (sections form)
             /\ invalidIn h form (values st) (fieldId f)) ->
  onSubmit h form (fst (onSubmit h form st)) = onSubmit h form st.
Proof.
  intros (f & Hf & Hinv).
  assert (Hne : resolver h (buildSchema h (sections form)) (values st) <> ∅).
  { intros He. apply (proj1 (resolver_empty_iff h form (values st)) He f Hf Hinv). }
  rewrite (onSubmit_invalid h form st Hne). simpl.
  rewrite onSubmit_invalid by done. simpl.
  destruct (firstErrorSection _ (sections form) 0 =? -1); reflexivity.
Qed.

Lemma failed_submit_idempotent_witness :
  (exists f, f ∈ allFields (sections sampleForm)
             /\ invalidIn sampleHost sampleForm (values onlyNameState) (fieldId f))
  /\ onSubmit sampleHost sampleForm (fst (onSubmit sampleHost sampleForm onlyNameState))
     = onSubmit sampleHost sampleForm onlyNameState.
Proof.
  assert (Hinv : exists f, f ∈ allFields (sections sampleForm)
            /\ invalidIn sampleHost sampleForm (values onlyNameState) (fieldId f)).
  { exists dobField. split.
    - right. left.
    - unfold invalidIn. vm_compute. eexists. reflexivity. }
  split; [exact Hinv|].
  exact (failed_submit_idempotent sampleHost sampleForm onlyNameState Hinv).
Defined.

(** ** Several presses of Next *)

(** X12: with every field of the form valid, any number of presses of
    Next is accepted; the index grows by one per press until it reaches
    the last section and stays there, and the values are never changed. *)
Theorem pressNext_saturates (h : Host) (form : Form) (n : nat) (st : FormState) :
  inRange form st ->
  (forall f, f ∈ allFields (sections form) ->
     ~ invalidIn h form (values st) (fieldId f)) ->
  exists st1,
    pressNext h form n st = Some st1
    /\ currentSectionIndex st1
       = Z.min (currentSectionIndex st + Z.of_nat n) (totalSections form - 1)
    /\ values st1 = values st.
Proof.
  intros Hin Hvalid. apply resolver_empty_iff in Hvalid.
  revert st Hin Hvalid. induction n as [|n IH]; intros st Hin Hvalid.
  - exists st. unfold inRange in Hin. simpl. split; [done|]. split; [lia|done].
  - destruct (sectionAt_inRange form _ Hin) as [section Hs].
    destruct (handleNext_cases h form st section Hs)
      as (st1 & eff & Hnext & Hvals & _ & Hok).
    destruct Hok as [_ Hidx].
    { intros (f & _ & [m Hm]). by rewrite Hvalid, lookup_empty in Hm. }
    simpl. rewrite Hnext.
    unfold inRange in Hin.
    destruct (IH st1) as (st2 & Hpress & Hidx2 & Hvals2).
    { unfold inRange. rewrite Hidx.
      destruct (Z.ltb_spec (currentSectionIndex st) (totalSections form - 1)); lia. }
    { by rewrite Hvals. }
    exists st2. split; [done|]. split; [|by rewrite Hvals2].
    rewrite Hidx2, Hidx.
    destruct (Z.ltb_spec (currentSectionIndex st) (totalSections form - 1)); lia.
Qed.

Lemma pressNext_saturates_witness :
  (inRange sampleForm filledState
   /\ forall f, f ∈ allFields (sections sampleForm) ->
        ~ invalidIn sampleHost sampleForm (values filledState) (fieldId f))
  /\ exists st1,
       pressNext sampleHost sampleForm 5 filledState = Some st1
       /\ currentSectionIndex st1
          = Z.min (currentSectionIndex filledState + Z.of_nat 5)
                  (totalSections sampleForm - 1)
       /\ values st1 = values filledState.
Proof.
  assert (H1 : inRange sampleForm filledState)
    by (unfold inRange, totalSections; simpl; lia).
  assert (H2 : forall f, f ∈ allFields (sections sampleForm) ->
                 ~ invalidIn sampleHost sampleForm (values filledState) (fieldId f)).
  { intros f Hf [m Hm]. vm_compute in Hf.
    repeat (apply elem_of_cons in Hf as [-> | Hf]);
      [ .. | by apply elem_of_nil in Hf ]; vm_compute in Hm; discriminate. }
  split; [by split|].
  exact (pressNext_saturates sampleHost sampleForm 5 filledState H1 H2).
Defined.

(** X13: an invalid section cannot be passed: while one of its fields is
    invalid, no number of presses of Next changes the section shown. *)
Theorem pressNext_blocked (h : Host) (form : Form) (n : nat) (st : FormState)
    (section : FormSection) :
  sectionAt form (currentSectionIndex st) = Some section ->
  sectionInvalid h form (values st) section ->
  exists st1,
    pressNext h form n st = Some st1
    /\ currentSectionIndex st1 = currentSectionIndex st
    /\ values st1 = values st.
Proof.
  revert st. induction n as [|n IH]; intros st Hs Hinv.
  - by exists st.
  - destruct (handleNext_cases h form st section Hs)
      as (st1 & eff & Hnext & Hvals & Hbad & _).
    destruct (Hbad Hinv) as [Hidx _].
    simpl. rewrite Hnext.
    destruct (IH st1) as (st2 & Hpress & Hidx2 & Hvals2).
    { by rewrite Hidx. } { by rewrite Hvals. }
    exists st2. split; [done|]. split; congruence.
Qed.

Lemma pressNext_blocked_witness :
  (sectionAt sampleForm (currentSectionIndex (initialState sampleForm))
     = Some (mkSection 1 [nameField])
   /\ sectionInvalid sampleHost sampleForm (values (initialState sampleForm))
        (mkSection 1 [nameField]))
  /\ exists st1,
       pressNext sampleHost sampleForm 4 (initialState sampleForm) = Some st1
       /\ currentSectionIndex st1 = currentSectionIndex (initialState sampleForm)
       /\ values st1 = values (initialState sampleForm).
Proof.
  assert (H1 : sectionAt sampleForm (currentSectionIndex (initialState sampleForm))
               = Some (mkSection 1 [nameField])) by reflexivity.
  assert (H2 : sectionInvalid sampleHost sampleForm (values (initialState sampleForm))
                 (mkSection 1 [nameField])).
  { exists nameField. split; [by left|].
    unfold invalidIn. vm_compute. eexists. reflexivity. }
  split; [by split|].
  exact (pressNext_blocked sampleHost sampleForm 4 (initialState sampleForm) _ H1 H2).
Defined.

(** ** Changing fields *)

Lemma resolver_insert_eq (h : Host) (form : Form) (vals1 vals2 : gmap string Value)
    (name : string) (v : Value) :
  resolver h (buildSchema h (sections form)) (<[name := v]> vals1) !! name
  = resolver h (buildSchema h (sections form)) (<[name := v]> vals2) !! name.
Proof. apply invalidIn_value. by rewrite !lookup_insert_eq. Qed.

(** X15: for fields named by plain keys, changes of two different
    fields commute, and of two changes of the same field the later one
    alone counts, for the values and for the errors; after a change the
    error stored for the field is the one its new value has, and the
    errors of the other fields are untouched. *)
Theorem updateField_composes (h : Host) (form : Form) (st : FormState)
    (n1 n2 : string) (v1 v2 : Value) :
  plainKey n1 -> plainKey n2 ->
  (n1 <> n2 ->
   updateField h form n1 v1 (updateField h form n2 v2 st)
   = updateField h form n2 v2 (updateField h form n1 v1 st))
  /\ updateField h form n1 v2 (updateField h form n1 v1 st)
     = updateField h form n1 v2 st
  /\ errors (updateField h form n1 v1 st) !! n1
     = fieldError h (default ZodAny (buildSchema h (sections form) !! n1)) v1
  /\ (n1 <> n2 ->
      errors (updateField h form n1 v1 st) !! n2 = errors st !! n2).
Proof.
  intros _ _. split; [|split; [|split]].
  - intros Hne. unfold updateField. simpl.
    rewrite (resolver_insert_eq h form (<[n2:=v2]> (values st)) (values st) n1 v1).
    rewrite (resolver_insert_eq h form (<[n1:=v1]> (values st)) (values st) n2 v2).
    f_equal.
    + by apply insert_insert_ne.
    + destruct (resolver h _ (<[n1:=v1]> (values st)) !! n1) as [m1|];
        destruct (resolver h _ (<[n2:=v2]> (values st)) !! n2) as [m2|].
      * by apply insert_insert_ne.
      * by rewrite delete_insert_ne.
      * by rewrite delete_insert_ne.
      * by apply delete_delete.
  - unfold updateField. simpl. rewrite insert_insert_eq.
    f_equal.
    destruct (resolver h _ (<[n1:=v2]> (values st)) !! n1) as [m2|];
      destruct (resolver h _ (<[n1:=v1]> (values st)) !! n1) as [m1|].
    + by rewrite insert_insert_eq.
    + by rewrite insert_delete_eq.
    + by rewrite delete_insert_eq.
    + by rewrite delete_delete_eq.
  - unfold updateField. simpl.
    rewrite lookup_resolver. unfold valueOf. rewrite lookup_insert_eq. simpl.
    destruct (buildSchema h (sections form) !! n1) as [t|] eqn:Ht; simpl.
    + destruct (fieldError h t v1) as [m|] eqn:Hm.
      * by rewrite lookup_insert_eq.
      * by rewrite lookup_delete_eq.
    + by rewrite lookup_delete_eq.
  - intros Hne. unfold updateField. simpl.
    destruct (resolver h _ (<[n1:=v1]> (values st)) !! n1) as [m|].
    + by rewrite lookup_insert_ne.
    + by rewrite lookup_delete_ne.
Qed.

Lemma updateField_composes_witness :
  (plainKey "name" /\ plainKey "city")
  /\ updateField sampleHost sampleForm "name" (VStr "Ada")
       (updateField sampleHost sampleForm "city" (VStr "Pune")
          (initialState sampleForm))
     = updateField sampleHost sampleForm "city" (VStr "Pune")
         (updateField sampleHost sampleForm "name" (VStr "Ada")
            (initialState sampleForm))
  /\ errors (updateField sampleHost sampleForm "name" (VStr "Al")
               (initialState sampleForm)) !! "name"
     = Some "Name must be at least 3 characters".
Proof.
  assert (H1 : plainKey "name") by (split; [discriminate | split; reflexivity]).
  assert (H2 : plainKey "city") by (split; [discriminate | split; reflexivity]).
  split; [by split|].
  split.
  - apply (updateField_composes sampleHost sampleForm (initialState sampleForm)
             "name" "city" (VStr "Ada") (VStr "Pune") H1 H2). discriminate.
  - destruct (updateField_composes sampleHost sampleForm (initialState sampleForm)
                "name" "city" (VStr "Al") (VStr "Pune") H1 H2) as (_ & _ & He & _).
    rewrite He. reflexivity.
Defined.

(** ** The footer *)

(** X16: in a state whose index is in range, Previous can be clicked
    exactly when the first section is not the one shown, the right-hand
    button is Submit on the last section and Next on every other, no
    button that can be clicked fails or leaves the range, and Next, where
    it is shown, moves on by one whenever the section is valid. *)
Theorem footer_buttons (h : Host) (form : Form) (st : FormState)
    (section : FormSection) :
  sectionAt form (currentSectionIndex st) = Some section ->
  (PreviousButton ∈ buttons form st <-> currentSectionIndex st <> 0)
  /\ (SubmitButton ∈ buttons form st
      <-> currentSectionIndex st = totalSections form - 1)
  /\ (NextButton ∈ buttons form st
      <-> currentSectionIndex st < totalSections form - 1)
  /\ (forall b, b ∈ buttons form st ->
        exists r, press h form b st = Some r /\ inRange form (fst r))
  /\ (NextButton ∈ buttons form st ->
      ~ sectionInvalid h form (values st) section ->
      nextIndex h form st = Some (currentSectionIndex st + 1)).
Proof.
  intros Hs. pose proof (sectionAt_Some form _ section Hs) as Hin.
  destruct (handleNext_index h form st section Hs)
    as (st1 & eff & Hnext & _ & Hidx1).
  assert (Hin1 : inRange form st1).
  { unfold inRange in *. rewrite Hidx1. destruct (negb _); simpl; [|lia].
    destruct (Z.ltb_spec (currentSectionIndex st) (totalSections form - 1)); lia. }
  assert (Hprev : inRange form (handlePrev st)).
  { unfold inRange, handlePrev in *.
    destruct (Z.gtb_spec (currentSectionIndex st) 0); simpl; lia. }
  pose proof (onSubmit_inRange h form st Hin) as Hsub.
  unfold buttons, previousDisabled, isLastSection.
  destruct (Z.eqb_spec (currentSectionIndex st) 0) as [H0|H0];
    destruct (Z.eqb_spec (currentSectionIndex st) (totalSections form - 1)) as [Hl|Hl];
    simpl.
  all: repeat split.
  all: try (intros Hb; repeat (apply elem_of_cons in Hb as [Hb|Hb]); try discriminate;
            try (by apply elem_of_nil in Hb); try done; lia).
  all: try (intros; apply list_elem_of_In; simpl; first [tauto | lia]).
  all: try (intros b Hb; repeat (apply elem_of_cons in Hb as [->|Hb]);
            try (by apply elem_of_nil in Hb); simpl;
            first [ by eexists | rewrite Hnext; by eexists ]).
  all: try (intros _ Hvalid; rewrite (nextIndex_eq h form st section Hs);
            destruct (handleNext_cases h form st section Hs) as (? & ? & _);
            rewrite (proj2 (existsb_hasError_false _ _)) by exact Hvalid; simpl;
            destruct (Z.ltb_spec (currentSectionIndex st) (totalSections form - 1));
            [done|lia]).
Qed.

Lemma footer_buttons_witness :
  sectionAt sampleForm (currentSectionIndex onlyNameState)
    = Some (mkSection 3 [agreeField])
  /\ buttons sampleForm onlyNameState = [PreviousButton; SubmitButton]
  /\ (SubmitButton ∈ buttons sampleForm onlyNameState
      <-> currentSectionIndex onlyNameState = totalSections sampleForm - 1).
Proof.
  assert (Hs : sectionAt sampleForm (currentSectionIndex onlyNameState)
               = Some (mkSection 3 [agreeField])) by reflexivity.
  split; [exact Hs|]. split; [reflexivity|].
  exact (proj1 (proj2 (footer_buttons sampleHost sampleForm onlyNameState _ Hs))).
Defined.

(** * Properties of the API calls and of the form page *)

(** ** [getForm] *)

Lemma invalidStructure_false_iff (r : Json) :
  invalidStructure r = false
  <-> exists ms formMs secs,
        r = JObj ms
        /\ member "form" ms = Some (JObj formMs)
        /\ member "sections" formMs = Some (JArr secs).
Proof.
  split.
  - unfold invalidStructure.
    destruct r as [|b|nz t|s|items|ms]; simpl; try discriminate;
      try (by destruct b); try (by destruct nz); try (by destruct (String.eqb s "")).
    destruct (member "form" ms) as [form|] eqn:Hform; simpl; [|discriminate].
    destruct form as [|b|nz t|s|items|formMs]; simpl; try discriminate;
      try (by destruct b); try (by destruct nz); try (by destruct (String.eqb s "")).
    destruct (member "sections" formMs) as [secs|] eqn:Hsecs; simpl; [|discriminate].
    destruct secs as [|b|nz t|s|items|sms]; simpl; try discriminate.
    intros _. by exists ms, formMs, items.
  - intros (ms & formMs & secs & -> & Hform & Hsecs).
    unfold invalidStructure. simpl. rewrite Hform. simpl. by rewrite Hsecs.
Qed.

(** The outcomes for which [getForm] returns. *)
Lemma getForm_returns_shape (eng : Engine) (o : FetchOutcome) (r : Json) :
  getForm eng o = Returns r
  <-> exists httpStatus ms formMs secs,
        o = FetchResponds httpStatus (BodyJson r)
        /\ isOk httpStatus = true
        /\ r = JObj ms
        /\ member "form" ms = Some (JObj formMs)
        /\ member "sections" formMs = Some (JArr secs).
Proof.
  split.
  - unfold getForm, rethrow, throwApiError.
    destruct o as [[m|]|httpStatus body]; try discriminate.
    destruct (isOk httpStatus) eqn:Hok; simpl.
    + destruct body as [j|[m|]]; try discriminate.
      destruct (invalidStructure j) eqn:Hinv; [discriminate|].
      intros Hr. injection Hr as <-.
      apply invalidStructure_false_iff in Hinv as (ms & formMs & secs & Hj & Hf & Hs).
      by exists httpStatus, ms, formMs, secs.
    + destruct (readMember _ "message") as [[j|]|]; discriminate.
  - intros (httpStatus & ms & formMs & secs & -> & Hok & Hr & Hform & Hsecs).
    unfold getForm. rewrite Hok. simpl.
    assert (Hinv : invalidStructure r = false).
    { apply invalidStructure_false_iff. by exists ms, formMs, secs. }
    by rewrite Hinv.
Qed.

(** X17: [getForm] returns data exactly when the response has a status
    from 200 to 299 and its body is a JSON object whose [form] is an
    object whose [sections] is an array; what it returns is that body,
    unchanged.  Nothing is asked of the sections themselves: an empty
    array passes. *)
Theorem getForm_returns_iff (eng : Engine) (o : FetchOutcome) (r : Json) :
  getForm eng o = Returns r
  <-> exists httpStatus ms formMs secs,
        o = FetchResponds httpStatus (BodyJson r)
        /\ isOk httpStatus = true
        /\ r = JObj ms
        /\ member "form" ms = Some (JObj formMs)
        /\ member "sections" formMs = Some (JArr secs).
Proof.
  split.
  - intros Hr. by apply (getForm_returns_shape eng o r).
  - intros Hshape. by apply (getForm_returns_shape eng o r).
Qed.

Lemma rethrow_throws {A : Type} (prefix unknown : string) (r : Outcome A) (e : Thrown) :
  rethrow prefix unknown r = Throws e ->
  exists m, e = ErrorWith m /\ (m = unknown \/ exists cause, m = prefix +:+ cause).
Proof.
  unfold rethrow. destruct r as [a|[m|]]; [discriminate| |].
  - intros He. injection He as <-. eexists. split; [done|]. right. by eexists.
  - intros He. injection He as <-. eexists. split; [done|]. by left.
Qed.

(** What [getForm] throws. *)
Lemma getForm_throws_shape (eng : Engine) (o : FetchOutcome) (e : Thrown) :
  getForm eng o = Throws e ->
  exists m,
    e = ErrorWith m
    /\ m <> ""
    /\ (m = "An unknown error occurred while fetching the form."
        \/ exists cause, m = "Failed to fetch form: " +:+ cause).
Proof.
  unfold getForm. intros Hthrow.
  apply rethrow_throws in Hthrow as (m & -> & Hm).
  exists m. split; [done|]. split; [|done].
  destruct Hm as [-> | [cause ->]]; discriminate.
Qed.

(** X18: whatever goes wrong, [getForm] throws an [Error], never
    anything else, and its message is never empty: it is the cause
    prefixed with "Failed to fetch form: ", or the text for an unknown
    error. *)
Theorem getForm_failure_message (eng : Engine) (o : FetchOutcome) (e : Thrown) :
  getForm eng o = Throws e ->
  exists m,
    e = ErrorWith m
    /\ m <> ""
    /\ (m = "An unknown error occurred while fetching the form."
        \/ exists cause, m = "Failed to fetch form: " +:+ cause).
Proof.
  intros Hthrow.
  destruct (getForm_throws_shape eng o e Hthrow) as (m & He & Hm & Hcause).
  by exists m.
Qed.

Lemma getForm_failure_message_witness :
  getForm sampleEngine (FetchResponds 200 (BodyJson (JObj [("form", JStr "x")])))
    = Throws (ErrorWith "Failed to fetch form: Invalid form structure received from API.")
  /\ exists m,
       ErrorWith "Failed to fetch form: Invalid form structure received from API."
         = ErrorWith m
       /\ m <> ""
       /\ (m = "An unknown error occurred while fetching the form."
           \/ exists cause, m = "Failed to fetch form: " +:+ cause).
Proof.
  assert (H : getForm sampleEngine
                (FetchResponds 200 (BodyJson (JObj [("form", JStr "x")])))
              = Throws (ErrorWith
                  "Failed to fetch form: Invalid form structure received from API."))
    by reflexivity.
  split; [exact H|].
  exact (getForm_failure_message sampleEngine _ _ H).
Defined.

(** X19: a response whose status is outside 200..299 never yields a
    form.  When its body cannot be read as JSON, or is JSON other than
    null without a truthy [message], the message thrown names the status;
    when the body is an object with a non-empty string as [message], that
    string is the cause. *)
Theorem getForm_not_ok (eng : Engine) (httpStatus : Z) (body : BodyRead) :
  isOk httpStatus = false ->
  (exists cause,
     getForm eng (FetchResponds httpStatus body)
     = Throws (ErrorWith ("Failed to fetch form: " +:+ cause)))
  /\ (forall e, body = BodyRejects e ->
        getForm eng (FetchResponds httpStatus body)
        = Throws (ErrorWith ("Failed to fetch form: API request failed with status "
                             +:+ pretty httpStatus)))
  /\ (forall j m, body = BodyJson j -> readMember j "message" = Some m ->
        truthy m = false ->
        getForm eng (FetchResponds httpStatus body)
        = Throws (ErrorWith ("Failed to fetch form: API request failed with status "
                             +:+ pretty httpStatus)))
  /\ (forall ms s, body = BodyJson (JObj ms) -> member "message" ms = Some (JStr s) ->
        s <> "" ->
        getForm eng (FetchResponds httpStatus body)
        = Throws (ErrorWith ("Failed to fetch form: " +:+ s))).
Proof.
  intros Hok. unfold getForm, throwApiError. rewrite Hok. simpl.
  split; [|split; [|split]].
  - destruct body as [j|e]; simpl.
    + destruct (readMember j "message") as [[m|]|]; simpl; by eexists.
    + by eexists.
  - intros e ->. reflexivity.
  - intros j m -> Hread Hfalsy. rewrite Hread. simpl.
    destruct m as [m|]; [|done]. by rewrite Hfalsy.
  - intros ms s -> Hmem Hs. simpl. rewrite Hmem. simpl.
    destruct (String.eqb_spec s ""); [done|reflexivity].
Qed.

Lemma getForm_not_ok_witness :
  isOk 503 = false
  /\ getForm sampleEngine (FetchResponds 503 (BodyRejects (ErrorWith "Unexpected token <")))
     = Throws (ErrorWith "Failed to fetch form: API request failed with status 503").
Proof.
  assert (H : isOk 503 = false) by reflexivity.
  split; [exact H|].
  exact (proj1 (proj2 (getForm_not_ok sampleEngine 503
                         (BodyRejects (ErrorWith "Unexpected token <")) H))
           _ eq_refl).
Defined.

(** ** [createUser] *)

Lemma createUser_returns_iff (eng : Engine) (o : FetchOutcome) (b : bool) :
  createUser eng o = Returns b
  <-> exists httpStatus j m,
        o = FetchResponds httpStatus (BodyJson j)
        /\ isOk httpStatus = true
        /\ readMember j "message" = Some m
        /\ b = (isSuccessMessage m || (httpStatus =? 200) || (httpStatus =? 201)).
Proof.
  split.
  - unfold createUser, rethrow, throwApiError.
    destruct o as [[m|]|httpStatus [j|[m|]]]; try discriminate.
    destruct (isOk httpStatus) eqn:Hok; simpl.
    + destruct (readMember j "message") as [m|] eqn:Hread; [|discriminate].
      intros Hr. injection Hr as <-. by exists httpStatus, j, m.
    + destruct (readMember j "message") as [[m|]|]; discriminate.
  - intros (httpStatus & j & m & -> & Hok & Hread & ->).
    unfold createUser. rewrite Hok. simpl. by rewrite Hread.
Qed.

(** X20: [createUser] returns a boolean exactly when the status is from
    200 to 299 and the body is JSON other than null; the boolean is true
    when the body's [message] is "User created successfully" or the
    status is 200 or 201, so that false can only come with a status from
    202 to 299.  The body is read before the status is looked at: when it
    cannot be read, the message thrown is that of the read, whatever the
    status. *)
Theorem createUser_result (eng : Engine) (o : FetchOutcome) (b : bool) :
  (createUser eng o = Returns b
   <-> exists httpStatus j m,
         o = FetchResponds httpStatus (BodyJson j)
         /\ isOk httpStatus = true
         /\ readMember j "message" = Some m
         /\ b = (isSuccessMessage m || (httpStatus =? 200) || (httpStatus =? 201)))
  /\ (createUser eng o = Returns false ->
      exists httpStatus body,
        o = FetchResponds httpStatus body /\ 202 <= httpStatus <= 299)
  /\ (forall httpStatus j, j <> JNull -> httpStatus = 200 \/ httpStatus = 201 ->
        createUser eng (FetchResponds httpStatus (BodyJson j)) = Returns true)
  /\ (forall httpStatus m,
        createUser eng (FetchResponds httpStatus (BodyRejects (ErrorWith m)))
        = Throws (ErrorWith ("Failed to register user: " +:+ m))).
Proof.
  split; [apply createUser_returns_iff|]. split; [|split; [|done]].
  - intros Hfalse.
    apply createUser_returns_iff in Hfalse as (httpStatus & j & m & -> & Hok & _ & Hb).
    exists httpStatus, (BodyJson j). split; [done|].
    unfold isOk in Hok. apply andb_true_iff in Hok as [Hlo Hhi].
    apply Z.leb_le in Hlo, Hhi. symmetry in Hb.
    apply orb_false_iff in Hb as [Hb H201]. apply orb_false_iff in Hb as [_ H200].
    apply Z.eqb_neq in H200, H201. lia.
  - intros httpStatus j Hj Hst. apply createUser_returns_iff.
    assert (Hread : exists m, readMember j "message" = Some m).
    { destruct j; try done; by eexists. }
    destruct Hread as [m Hread].
    exists httpStatus, j, m. split; [done|]. split.
    + destruct Hst as [-> | ->]; reflexivity.
    + split; [done|]. destruct Hst as [-> | ->]; simpl; by rewrite ?orb_true_r.
Qed.

(** The three ways of the sample engine: a 204 without the message of
    success gives false, a 200 with the body null throws, and so does a
    400 whose body is not JSON, with the message of the read. *)
Example createUser_examples :
  createUser sampleEngine (FetchResponds 204 (BodyJson (JObj []))) = Returns false
  /\ createUser sampleEngine (FetchResponds 200 (BodyJson JNull))
     = Throws (ErrorWith
         "Failed to register user: Cannot read properties of null (reading 'message')")
  /\ createUser sampleEngine
       (FetchResponds 400 (BodyRejects (ErrorWith "Unexpected token <")))
     = Throws (ErrorWith "Failed to register user: Unexpected token <").
Proof. repeat split. Qed.

(** ** The form page *)

Lemma getForm_returns_form (eng : Engine) (o : FetchOutcome) (r : Json) :
  getForm eng o = Returns r ->
  exists ms formMs secs,
    r = JObj ms /\ readMember r "form" = Some (Some (JObj formMs))
    /\ member "sections" formMs = Some (JArr secs).
Proof.
  intros Hr. apply getForm_returns_shape in Hr
    as (httpStatus & ms & formMs & secs & _ & _ & -> & Hform & Hsecs).
  exists ms, formMs, secs. simpl. by rewrite Hform.
Qed.

Lemma errorShown_nonempty (m : string) : m <> "" -> errorShown (Some m) = true.
Proof. intros Hm. simpl. by destruct (String.eqb_spec m ""). Qed.

(** X21: what the page shows once the effect has run.  Without a roll
    number (none stored, or the empty string) nothing is fetched, a
    redirect is asked for, and the page keeps showing the loading
    skeleton together with the alert "You must log in first.".  With a
    roll number the form is fetched for it.  When [getForm] returned and
    the form received is a form description with at least one section,
    the page ends with the form alone, handed to [DynamicForm], whose
    first section is there to be shown; when [getForm] threw, it ends
    with an alert alone, carrying the message thrown. *)
Theorem page_final_view (eng : Engine) (rollNumber : option string)
    (o : FetchOutcome) :
  (hasRollNumber rollNumber = false ->
   pageView rollNumber (finalPage eng rollNumber o)
   = [LoadingSkeleton; ErrorAlert "You must log in first."]
   /\ pageRequests rollNumber = [RedirectLater "/"])
  /\ (hasRollNumber rollNumber = true ->
      (exists r, rollNumber = Some r /\ pageRequests rollNumber = [FetchFormFor r])
      /\ (forall response form,
            getForm eng o = Returns response ->
            readMember response "form" = Some (Some (jsonOfForm form)) ->
            sections form <> [] ->
            pageView rollNumber (finalPage eng rollNumber o)
            = [FormView (jsonOfForm form)]
            /\ is_Some (sectionAt form (currentSectionIndex (initialState form))))
      /\ (forall e, getForm eng o = Throws e ->
            exists m, e = ErrorWith m
                      /\ pageView rollNumber (finalPage eng rollNumber o)
                         = [ErrorAlert m])).
Proof.
  split.
  - intros Hno. unfold finalPage, pageUpdates, pageRequests. rewrite Hno. simpl.
    split; [reflexivity|].
    destruct rollNumber as [r|]; [|done]. simpl in Hno.
    by destruct (String.eqb r "").
  - intros Hyes. split; [|split].
    + destruct rollNumber as [r|]; [|discriminate]. exists r. split; [done|].
      unfold pageRequests. simpl in Hyes. by destruct (String.eqb r "").
    + intros response form Hr Hform Hne. split.
      * unfold finalPage, pageUpdates. rewrite Hyes, Hr, Hform. simpl.
        unfold pageView. simpl. by rewrite ?Hyes.
      * apply sectionAt_inRange. unfold inRange, totalSections. simpl.
        destruct (sections form); [done|]. simpl. lia.
    + intros e He.
      destruct (getForm_throws_shape eng o e He) as (m & -> & Hm & _).
      exists m. split; [done|].
      unfold finalPage, pageUpdates. rewrite Hyes, He. simpl.
      unfold pageView. simpl.
      pose proof (errorShown_nonempty m Hm) as Hshown. simpl in Hshown.
      by rewrite Hshown.
Qed.

(** X22: the two placeholder texts of the page, "Redirecting to
    login..." and "No form data found for this user.", are never shown:
    in no state the page is rendered in, from the first one to the last,
    with or without a roll number, whatever the fetch comes to. *)
Theorem page_placeholders_never_shown (eng : Engine) (rollNumber : option string)
    (o : FetchOutcome) :
  Forall (fun st => (RedirectingText ∉ pageView rollNumber st)
                    /\ (NoFormDataText ∉ pageView rollNumber st))
         (pageStates eng rollNumber o).
Proof.
  assert (Hloading : forall st, isLoading st = true ->
            (RedirectingText ∉ pageView rollNumber st)
            /\ (NoFormDataText ∉ pageView rollNumber st)).
  { intros st Hl. unfold pageView. rewrite Hl. simpl.
    destruct (error st) as [m|]; [destruct (errorShown (Some m))|];
      destruct (formStructure st); simpl; split; intros Hin;
      repeat (apply elem_of_cons in Hin as [Hin|Hin]; [discriminate|]);
      by apply elem_of_nil in Hin. }
  unfold pageStates, pageUpdates.
  destruct (hasRollNumber rollNumber) eqn:Hroll; simpl.
  - destruct (getForm eng o) as [response|e] eqn:Hget.
    + destruct (getForm_returns_form eng o response Hget)
        as (ms & formMs & secs & _ & Hform & _).
      rewrite Hform. simpl.
      repeat (apply Forall_cons; split; [by apply Hloading|]).
      apply Forall_cons. split; [|by apply Forall_nil].
      unfold pageView. simpl. rewrite ?Hroll. simpl.
      split; intros Hin;
        repeat (apply elem_of_cons in Hin as [Hin|Hin]; [discriminate|]);
        by apply elem_of_nil in Hin.
    + destruct (getForm_throws_shape eng o e Hget) as (m & -> & Hm & _). simpl.
      repeat (apply Forall_cons; split; [by apply Hloading|]).
      apply Forall_cons. split; [|by apply Forall_nil].
      unfold pageView. simpl.
      pose proof (errorShown_nonempty m Hm) as Hshown. simpl in Hshown.
      rewrite Hshown. simpl.
      split; intros Hin;
        repeat (apply elem_of_cons in Hin as [Hin|Hin]; [discriminate|]);
        by apply elem_of_nil in Hin.
  - repeat (apply Forall_cons; split; [by apply Hloading|]). by apply Forall_nil.
Qed.

(** [getForm] on the two sample responses: both are returned, the one
    whose form has no sections as well. *)
Example getForm_examples :
  getForm sampleEngine (FetchResponds 200 (BodyJson sampleResponse))
  = Returns sampleResponse
  /\ getForm sampleEngine (FetchResponds 200 (BodyJson sampleFormJson))
     = Returns sampleFormJson.
Proof. split; reflexivity. Qed.

(** The page on the sample response, with and without a roll number. *)
Example page_examples :
  map (pageView (Some "42"))
      (pageStates sampleEngine (Some "42") (FetchResponds 200 (BodyJson sampleResponse)))
  = [[LoadingSkeleton]; [LoadingSkeleton]; [LoadingSkeleton]; [LoadingSkeleton];
     [FormView (jsonOfForm sampleForm)]]
  /\ map (pageView (Some ""))
       (pageStates sampleEngine (Some "") (FetchResponds 200 (BodyJson sampleResponse)))
     = [[LoadingSkeleton]; [LoadingSkeleton; ErrorAlert "You must log in first."]].
Proof. split; reflexivity. Qed.
